(** * salesforce-mcp: CSV import/report pipelines and rate limiter

    A shallow embedding of
      - [src/middleware/auth.js]       (rateLimiter),
      - [src/services/salesforce.js]   (querySalesforce, createRecord),
      - [src/services/csvImport.js]    (importContactsFromCSV, mapContactFields,
                                        findOrCreateAccount),
      - [src/services/csvReport.js]    (generateCsvReport, writeCsvFile),
    followed by the properties of the specification that concern them.

    JavaScript objects used as string-keyed maps are [gmap string _];
    objects whose key order is observed ([Object.keys]) are association
    lists; asynchronous functions are computations in a state-and-exception
    monad run sequentially, which is what [await] in a single request
    gives. *)

From Stdlib Require Import ZArith Lia Ascii String.
From stdpp Require Import gmap strings list fin_maps.

Local Open Scope string_scope.
Local Open Scope list_scope.
Local Open Scope Z_scope.
Local Set Warnings "-clear-no-such-hyp".

(* ===================================================================== *)
(** ** JavaScript values, exceptions and the effect monad                 *)
(* ===================================================================== *)

(** A thrown [Error] object; only its [message] is ever read. *)
Record Error := mkError { message : string }.

(** How an awaited computation ends: it returns, it throws (a rejected
    promise), or an ['error'] event fires on an emitter that has no listener
    for it: Node raises that as an uncaught exception of the process and the
    awaiting caller is never resumed, so no [catch] sees it. *)
Inductive Outcome (A : Type) : Type :=
| Ret (a : A)
| Throw (e : Error)
| Uncaught (e : Error).
Arguments Ret {A} a.
Arguments Throw {A} e.
Arguments Uncaught {A} e.

Definition M (S A : Type) : Type := S → Outcome A * S.

Definition throw {S A} (e : Error) : M S A := λ s, (Throw e, s).

Definition try_catch {S A} (body : M S A) (handler : Error → M S A) : M S A :=
  λ s, match body s with
       | (Throw e, s') => handler e s'
       | r => r
       end.

#[export] Instance M_ret {S} : MRet (M S) := λ A a s, (Ret a, s).
#[export] Instance M_bind {S} : MBind (M S) := λ A B f m s,
  match m s with
  | (Ret a, s') => f a s'
  | (Throw e, s') => (Throw e, s')
  | (Uncaught e, s') => (Uncaught e, s')
  end.

(** [for (const x of xs) { body x }] *)
Fixpoint forOf {S A} (xs : list A) (body : A → M S unit) : M S unit :=
  match xs with
  | [] => mret tt
  | x :: rest => _ ← body x; forOf rest body
  end.

(** Truthiness of a string-or-undefined property read. *)
Definition truthy (v : option string) : bool :=
  match v with
  | Some s => negb (String.eqb s "")
  | None => false
  end.

(** [v || d] on a string-or-undefined value. *)
Definition or_default (v : option string) (d : string) : string :=
  match v with
  | Some s => if String.eqb s "" then d else s
  | None => d
  end.

(** [Math.ceil(a / b)] for integers [a] and a positive integer [b]. *)
Definition ceil_div (a b : Z) : Z := - ((- a) / b).

(* ===================================================================== *)
(** ** src/middleware/auth.js : rateLimiter                               *)
(* ===================================================================== *)

Module Auth.

Definition RATE_LIMIT_WINDOW_MS : Z := 60 * 1000.
Definition RATE_LIMIT_MAX_REQUESTS : Z := 5.

(** The value stored under a caller key: [{ count, resetTime }]. *)
Record Entry := mkEntry { count : Z; resetTime : Z }.

(** A JavaScript number as it reaches a response header. *)
Inductive JSNumber := Num (z : Z) | NaN.

(** [requestCounts] is the object literal [{}]: its own properties are the
    entries the limiter stored, and every other read goes to
    [Object.prototype].  These are the property names found there. *)
Definition Object_prototype_keys : list string :=
  [ "constructor"; "__proto__"; "hasOwnProperty"; "isPrototypeOf";
    "propertyIsEnumerable"; "toLocaleString"; "toString"; "valueOf";
    "__defineGetter__"; "__defineSetter__"; "__lookupGetter__";
    "__lookupSetter__" ].

(** What [requestCounts[apiKey]] evaluates to. *)
Inductive Slot :=
| Own (e : Entry)      (* an entry stored by the limiter *)
| Inherited            (* a function or object found on the prototype *)
| Undefined.

Definition read_slot (requestCounts : gmap string Entry) (apiKey : string) : Slot :=
  match requestCounts !! apiKey with
  | Some e => Own e
  | None => if bool_decide (apiKey ∈ Object_prototype_keys) then Inherited else Undefined
  end.

Record Request := mkRequest { x_api_key : option string; ip : string }.

Inductive Response :=
| Next (limit remaining reset : JSNumber)    (* headers set, next() called *)
| Status429 (retryAfter : Z).                (* res.status(429).json(...)  *)

(** [req.headers['x-api-key'] || req.ip] *)
Definition caller_key (req : Request) : string := or_default (x_api_key req) (ip req).

(** One call of the middleware at [Date.now() = now].

    For an inherited slot the object read is truthy, its [resetTime] and
    [count] are [undefined] (later [NaN]), both comparisons are false,
    [count++] stores [NaN] on the inherited object, and the headers carry
    [NaN]; the own properties of [requestCounts] are not touched. *)
Definition rateLimiter (req : Request) (now : Z) (requestCounts : gmap string Entry)
  : Response * gmap string Entry :=
  let apiKey := caller_key req in
  match read_slot requestCounts apiKey with
  | Inherited =>
      (Next (Num RATE_LIMIT_MAX_REQUESTS) NaN NaN, requestCounts)
  | slot =>
      let fresh := mkEntry 0 (now + RATE_LIMIT_WINDOW_MS) in
      let entry :=
        match slot with
        | Own e => if (resetTime e <? now)%Z then fresh else e
        | _ => fresh
        end in
      if (RATE_LIMIT_MAX_REQUESTS <=? count entry)%Z then
        (Status429 (ceil_div (resetTime entry - now) 1000),
         <[apiKey := entry]> requestCounts)
      else
        let entry' := mkEntry (count entry + 1) (resetTime entry) in
        (Next (Num RATE_LIMIT_MAX_REQUESTS)
              (Num (RATE_LIMIT_MAX_REQUESTS - count entry'))
              (Num (ceil_div (resetTime entry') 1000)),
         <[apiKey := entry']> requestCounts)
  end.

(** A sequence of requests, each with its arrival time, served in order. *)
Fixpoint serve (reqs : list (Request * Z)) (requestCounts : gmap string Entry)
  : list Response * gmap string Entry :=
  match reqs with
  | [] => ([], requestCounts)
  | (req, now) :: rest =>
      let '(r, rc) := rateLimiter req now requestCounts in
      let '(rs, rc') := serve rest rc in
      (r :: rs, rc')
  end.

End Auth.

(* ===================================================================== *)
(** ** String helpers standing for the JavaScript string methods used     *)
(* ===================================================================== *)

(** A JavaScript string is kept as its text in UTF-8, one [ascii] for each
    byte; a string with an unpaired surrogate has no such text and is left
    out.  An ASCII character is its own byte and no byte of another
    character is below 128, so a method that looks for ASCII characters
    reads the bytes one by one; a method that works on every character, or
    on UTF-16 code units, reads the bytes of a character together. *)

(** [s.replace(/.../g, ...)] where the pattern is a character class: every
    byte is rewritten on its own. *)
Fixpoint replace_each (f : ascii → string) (s : string) : string :=
  match s with
  | EmptyString => EmptyString
  | String a rest => f a +:+ replace_each f rest
  end.

Definition is_quote (a : ascii) : bool := Ascii.eqb a "'"%char.

(** [accountName.replace(/'/g, "\\'")] *)
Definition escape_quotes : string → string :=
  replace_each (λ a, if is_quote a then "\'" else String a EmptyString).

Definition is_alnum (a : ascii) : bool :=
  let n := Ascii.N_of_ascii a in
  ((48 <=? n) && (n <=? 57) || (65 <=? n) && (n <=? 90) || (97 <=? n) && (n <=? 122))%N.

(** A byte 10xxxxxx, which continues a character begun by an earlier byte. *)
Definition is_continuation (n : N) : bool := ((0x80 <=? n) && (n <? 0xC0))%N.

(** [reportName.replace(/[^a-z0-9]/gi, '_')]: the pattern has no [u] flag, so
    it matches every UTF-16 code unit that is not an ASCII letter or digit,
    and each match becomes one underscore.  A character of one to three
    bytes is one code unit, a character of four bytes (first byte 11110xxx)
    is a surrogate pair, two code units.  The underscores of a character are
    written at its first byte; its continuation bytes add nothing. *)
Definition sanitize : string → string :=
  replace_each (λ a,
    let n := Ascii.N_of_ascii a in
    if is_alnum a then String a EmptyString
    else if is_continuation n then ""
    else if (0xF0 <=? n)%N then "__"
    else "_").

(** [timestamp.replace(/[:.]/g, '-')] *)
Definition dash_colons_dots : string → string :=
  replace_each (λ a, if (Ascii.eqb a ":" || Ascii.eqb a ".")%char then "-" else String a EmptyString).

(** [key.endsWith(suffix)] *)
Definition endsWith (s suffix : string) : bool :=
  let n := String.length s in
  let m := String.length suffix in
  (m <=? n)%nat && String.eqb (String.substring (n - m) m s) suffix.

(** The payload of a continuation byte. *)
Definition continuation (a : ascii) : option N :=
  let n := Ascii.N_of_ascii a in
  if is_continuation n then Some (n - 0x80)%N else None.

(** A code point that took more bytes than it needs is not UTF-8. *)
Definition at_least (least cp : N) (rest : string) : option (N * string) :=
  if (least <=? cp)%N then Some (cp, rest) else None.

(** The first character of a text: its code point and the text after it.
    [None] for the empty text and for a text that does not begin with a
    well-formed character. *)
Definition codePoint (s : string) : option (N * string) :=
  match s with
  | EmptyString => None
  | String a r1 =>
      let x := Ascii.N_of_ascii a in
      if (x <? 0x80)%N then Some (x, r1)
      else
        match r1 with
        | EmptyString => None
        | String b r2 =>
            if ((0xC0 <=? x) && (x <? 0xE0))%N then
              y ← continuation b;
              at_least 0x80 ((x - 0xC0) * 0x40 + y)%N r2
            else
              match r2 with
              | EmptyString => None
              | String c r3 =>
                  if ((0xE0 <=? x) && (x <? 0xF0))%N then
                    y ← continuation b; z ← continuation c;
                    at_least 0x800 ((x - 0xE0) * 0x1000 + y * 0x40 + z)%N r3
                  else
                    match r3 with
                    | EmptyString => None
                    | String d r4 =>
                        if ((0xF0 <=? x) && (x <? 0xF8))%N then
                          y ← continuation b; z ← continuation c; w ← continuation d;
                          at_least 0x10000
                            ((x - 0xF0) * 0x40000 + y * 0x1000 + z * 0x40 + w)%N r4
                        else None
                    end
              end
        end
  end.

(** The code points [String.prototype.trim] removes: WhiteSpace (TAB, VT, FF,
    ZWNBSP and the space separators of Unicode) and LineTerminator (LF, CR,
    LS, PS) of ECMAScript. *)
Definition is_WhiteSpace (cp : N) : bool :=
  ((cp =? 0x9) || (cp =? 0xA) || (cp =? 0xB) || (cp =? 0xC) || (cp =? 0xD)
   || (cp =? 0x20) || (cp =? 0xA0) || (cp =? 0x1680)
   || ((0x2000 <=? cp) && (cp <=? 0x200A))
   || (cp =? 0x2028) || (cp =? 0x2029) || (cp =? 0x202F) || (cp =? 0x205F)
   || (cp =? 0x3000) || (cp =? 0xFEFF))%N.

(** Drop white space from the front, at most [fuel] characters of it. *)
Fixpoint trimStart_upto (fuel : nat) (s : string) : string :=
  match fuel with
  | O => s
  | S fuel =>
      match codePoint s with
      | Some (cp, rest) => if is_WhiteSpace cp then trimStart_upto fuel rest else s
      | None => s
      end
  end.

(** [s.trimStart()]: a text has no more characters than bytes. *)
Definition trimStart (s : string) : string := trimStart_upto (String.length s) s.

(** [s.trimEnd()]: the text is cut where the rest of it is white space
    only. *)
Fixpoint trimEnd (s : string) : string :=
  match s with
  | EmptyString => EmptyString
  | String a rest =>
      if String.eqb (trimStart s) "" then "" else String a (trimEnd rest)
  end.

(** [s.trim()] *)
Definition trim (s : string) : string := trimEnd (trimStart s).

(** [xs.join(sep)] on an array of strings *)
Definition join (sep : string) (xs : list string) : string := String.concat sep xs.

(* ===================================================================== *)
(** ** The outside world: CRM connection, CSV libraries, files            *)
(* ===================================================================== *)

(** A promise handed back by a library settles one way or the other. *)
Inductive Settled (A : Type) : Type :=
| Resolve (a : A)
| Reject (e : Error).
Arguments Resolve {A} a.
Arguments Reject {A} e.

Definition await {A} (p : Settled A) : Outcome A :=
  match p with
  | Resolve a => Ret a
  | Reject e => Throw e
  end.

(** A flat record of string fields: a parsed CSV row, and the contact record
    built from it. *)
Abbreviation Obj := (gmap string string).

(** A field value of a record returned by a query. *)
Inductive Value :=
| VNull
| VStr (s : string)
| VNum (z : Z)
| VBool (b : bool)
| VObject (props : list (string * string)).

(** A returned record, its properties in [Object.keys] order. *)
Abbreviation SObject := (list (string * Value)).

Definition Object_keys (o : SObject) : list string := o.*1.

(** [o[field]] *)
Fixpoint prop (field : string) (o : SObject) : option Value :=
  match o with
  | [] => None
  | (k, v) :: rest => if String.eqb k field then Some v else prop field rest
  end.

(** [o.Id]: record identifiers are strings; anything else counts as no
    identifier. *)
Definition prop_Id (o : SObject) : option string :=
  match prop "Id" o with
  | Some (VStr s) => Some s
  | _ => None
  end.

(** Result of [conn.query]; [records] may be missing. *)
Record QueryResult := mkQueryResult { records : option (list SObject) }.

(** Result of [conn.sobject(kind).create]: [{ id, success, errors }], where
    [id] and [errors] may be missing. *)
Record CreateResult := mkCreateResult {
  res_id : option string;
  success : bool;
  res_errors : option (list string)
}.

(** The jsforce connection, as a deterministic function of a hidden state of
    the CRM.  Logging in lazily on first use is part of what each call
    does. *)
Class Connection (World : Type) := {
  conn_query : string → World → Settled QueryResult * World;
  conn_create : string → Obj → World → Settled CreateResult * World
}.

(** The two CSV libraries: [csv-parser] turns the text of a file into rows or
    emits ['error']; [fast-csv] renders rows under a header line. *)
Class CsvLib := {
  csv_parse : string → Settled (list Obj);
  csv_format : list string → list (list (string * option Value)) → string
}.

(** Node's own modules, as far as a report needs them.  [path.join] of a
    directory and a file name is whatever the platform makes of the two.  A
    write stream opened on a path either finishes, and the file then holds
    the text written, or emits ['error']: [stream_error filePath text disk]
    is that error with the disk the failed write leaves behind, and [None]
    when the stream finishes. *)
Class Node := {
  path_join : string → string → string;
  stream_error : string → string → gmap string string → option (Error * gmap string string)
}.

Inductive Event :=
| EvQuery (soql : string)
| EvCreate (objectName : string) (record : Obj)
| EvRead (path : string)
| EvWrite (path : string)
| EvUnlink (path : string).

(** Everything a request can touch outside its own variables. *)
Record Env {World : Type} := mkEnv {
  sf : World;                        (* the CRM behind the connection *)
  files : gmap string string;        (* the local disk: path to contents *)
  clock : string;                    (* new Date().toISOString() *)
  trace : list Event                 (* external calls made so far, oldest first *)
}.
Arguments Env World : clear implicits.
Arguments mkEnv {World} sf files clock trace.

Definition log {W} (ev : Event) (env : Env W) : Env W :=
  mkEnv (sf env) (files env) (clock env) (trace env ++ [ev]).

Definition with_sf {W} (w : W) (env : Env W) : Env W :=
  mkEnv w (files env) (clock env) (trace env).

Definition with_files {W} (fs : gmap string string) (env : Env W) : Env W :=
  mkEnv (sf env) fs (clock env) (trace env).

(* ===================================================================== *)
(** ** src/services/salesforce.js                                         *)
(* ===================================================================== *)

Module SalesforceService.
Section Service.
Context {World : Type} `{!Connection World}.

(** The [catch] clause logs and rethrows. *)
Definition querySalesforce (soql : string) : M (Env World) QueryResult :=
  try_catch
    (λ env, let '(p, w) := conn_query soql (sf env) in
            (await p, with_sf w (log (EvQuery soql) env)))
    (λ error, throw error).

Definition createRecord (objectName : string) (record : Obj)
  : M (Env World) CreateResult :=
  try_catch
    (λ env, let '(p, w) := conn_create objectName record (sf env) in
            (await p, with_sf w (log (EvCreate objectName record) env)))
    (λ error, throw error).

End Service.
End SalesforceService.

(* ===================================================================== *)
(** ** src/services/csvImport.js                                          *)
(* ===================================================================== *)

Module CsvImport.

(** [dst[field] = src[field]].  Every call site is guarded so that
    [src[field]] is defined. *)
Definition assign (field : string) (src dst : Obj) : Obj :=
  match src !! field with
  | Some v => <[field := v]> dst
  | None => dst
  end.

Definition standardFields : list string :=
  [ "FirstName"; "Email"; "Phone"; "MobilePhone"; "Title";
    "Department"; "Description" ].

Definition mailingFields : list string :=
  [ "MailingStreet"; "MailingCity"; "MailingState"; "MailingPostalCode";
    "MailingCountry" ].

Definition assign_if_truthy (csvContact contactRecord : Obj) (field : string) : Obj :=
  if truthy (csvContact !! field) then assign field csvContact contactRecord
  else contactRecord.

Definition assign_if_custom (csvContact contactRecord : Obj) (key : string) : Obj :=
  if endsWith key "__c" then assign key csvContact contactRecord
  else contactRecord.

Definition mapContactFields (csvContact : Obj) : Obj :=
  (* Map standard fields *)
  let contactRecord : Obj :=
    {[ "LastName" := or_default (csvContact !! "LastName") "Unknown" ]} in
  (* Map other standard fields if they exist *)
  let contactRecord :=
    foldl (assign_if_truthy csvContact) contactRecord standardFields in
  (* Map address fields *)
  let contactRecord :=
    if truthy (csvContact !! "MailingStreet") || truthy (csvContact !! "MailingCity")
       || truthy (csvContact !! "MailingState")
       || truthy (csvContact !! "MailingPostalCode")
       || truthy (csvContact !! "MailingCountry")
    then foldl (assign_if_truthy csvContact) contactRecord mailingFields
    else contactRecord in
  (* Keep AccountName for processing *)
  let contactRecord := assign_if_truthy csvContact contactRecord "AccountName" in
  (* Map any custom fields (fields ending with __c) *)
  foldl (assign_if_custom csvContact) contactRecord (map_to_list csvContact).*1.

(** One element of [errors] and of [successfulRecords]. *)
Record ErrorEntry := mkErrorEntry { record : Obj; error : string }.
Record SuccessEntry := mkSuccessEntry { id : option string; name : string }.

(** The three arrays declared at the top of [importContactsFromCSV]. *)
Record Arrays := mkArrays {
  results : list CreateResult;
  errors : list ErrorEntry;
  successfulRecords : list SuccessEntry
}.

(** The object returned by [importContactsFromCSV]. *)
Record ImportResult := mkImportResult {
  totalProcessed : nat;
  successful : nat;
  failed : nat;
  out_successfulRecords : list SuccessEntry;
  out_errors : list ErrorEntry
}.

(** Reading [.join] on a missing [errors] array. *)
Definition TypeError_join : Error :=
  mkError "Cannot read properties of undefined (reading 'join')".

Definition accountQuery (accountName : string) : string :=
  "SELECT Id FROM Account WHERE Name = '" +:+ escape_quotes accountName +:+ "'".

(** [`${contactRecord.FirstName || ''} ${contactRecord.LastName}`.trim()] *)
Definition displayName (contactRecord : Obj) : string :=
  trim (or_default (contactRecord !! "FirstName") "" +:+ " "
        +:+ default "undefined" (contactRecord !! "LastName")).

(** The fields that are copied only when their value is non-empty. *)
Definition optionalFields : list string :=
  standardFields ++ mailingFields ++ ["AccountName"].

Section Importer.
Context {World : Type} `{!Connection World} `{!CsvLib}.
Import SalesforceService.

Definition findOrCreateAccount (accountName : string)
  : M (Env World) (option string) :=
  try_catch
    ((* Try to find the account first *)
     result ← querySalesforce (accountQuery accountName);
     match records result with
     | Some (first :: _) => mret (prop_Id first)
     | _ =>
         (* Account not found, create it *)
         createResult ← createRecord "Account" {[ "Name" := accountName ]};
         if success createResult then mret (res_id createResult)
         else mret None
     end)
    (λ _, mret None).

(** The state of a running import: its arrays and the world. *)
Abbreviation ImportState := (Arrays * Env World)%type.

Definition lift {A} (m : M (Env World) A) : M ImportState A :=
  λ '(arr, env), let '(r, env') := m env in (r, (arr, env')).

Definition push_result (r : CreateResult) : M ImportState unit :=
  λ '(arr, env),
    (Ret tt, (mkArrays (results arr ++ [r]) (errors arr) (successfulRecords arr), env)).

Definition push_error (e : ErrorEntry) : M ImportState unit :=
  λ '(arr, env),
    (Ret tt, (mkArrays (results arr) (errors arr ++ [e]) (successfulRecords arr), env)).

Definition push_successful (r : SuccessEntry) : M ImportState unit :=
  λ '(arr, env),
    (Ret tt, (mkArrays (results arr) (errors arr) (successfulRecords arr ++ [r]), env)).

(** Lines 37-45: resolve [AccountName] into [AccountId]. *)
Definition attachAccountId (accountId : option string) (contactRecord : Obj) : Obj :=
  match accountId with
  | Some v => if truthy accountId then <["AccountId" := v]> contactRecord
              else contactRecord
  | None => contactRecord
  end.

Definition resolveAccount (contactRecord : Obj) : M (Env World) Obj :=
  match contactRecord !! "AccountName" with
  | Some accountName =>
      if truthy (Some accountName) then
        accountId ← findOrCreateAccount accountName;
        let contactRecord := attachAccountId accountId contactRecord in
        (* Remove AccountName as it's not a field in the Contact object *)
        mret (delete "AccountName" contactRecord)
      else mret contactRecord
  | None => mret contactRecord
  end.

(** The body of the inner [try], lines 34-62. *)
Definition tryContact (contact : Obj) : M ImportState unit :=
  contactRecord ← lift (resolveAccount (mapContactFields contact));
  result ← lift (createRecord "Contact" contactRecord);
  _ ← (if success result then
         push_successful (mkSuccessEntry (res_id result) (displayName contactRecord))
       else
         match res_errors result with
         | Some errs => push_error (mkErrorEntry contactRecord (join ", " errs))
         | None => throw TypeError_join
         end);
  push_result result.

(** The inner [catch], lines 63-69. *)
Definition catchContact (contact : Obj) (e : Error) : M ImportState unit :=
  push_error (mkErrorEntry contact (message e)).

Definition processContact (contact : Obj) : M ImportState unit :=
  try_catch (tryContact contact) (catchContact contact).

(** Lines 20-27.  The ['error'] listener that rejects the promise is attached
    to the parser (the value of [.pipe(csv())]), so it hears what the parser
    emits; a failure to open the file is emitted by the read stream, which
    has no listener. *)
Definition ENOENT (filePath : string) : Error :=
  mkError ("ENOENT: no such file or directory, open '" +:+ filePath +:+ "'").

Definition readContacts (filePath : string) : M (Env World) (list Obj) :=
  λ env,
    match files env !! filePath with
    | Some text => (await (csv_parse text), log (EvRead filePath) env)
    | None => (Uncaught (ENOENT filePath), env)
    end.

(** [fs.unlinkSync(filePath)] *)
Definition unlinkSync (filePath : string) : M (Env World) unit :=
  λ env,
    match files env !! filePath with
    | Some _ => (Ret tt, with_files (delete filePath (files env)) (log (EvUnlink filePath) env))
    | None => (Throw (mkError ("ENOENT: no such file or directory, unlink '"
                               +:+ filePath +:+ "'")), env)
    end.

Definition get_arrays : M ImportState Arrays := λ '(arr, env), (Ret arr, (arr, env)).

Definition importBody (filePath : string) : M ImportState ImportResult :=
  try_catch
    (contacts ← lift (readContacts filePath);
     (* Process each contact *)
     _ ← forOf contacts processContact;
     (* Clean up the temporary file *)
     _ ← lift (unlinkSync filePath);
     arr ← get_arrays;
     mret (mkImportResult (length contacts)
                          (length (successfulRecords arr))
                          (length (errors arr))
                          (successfulRecords arr)
                          (errors arr)))
    (λ error, throw error).

(** The arrays start empty on every call and are dropped on return. *)
Definition importContactsFromCSV (filePath : string) : M (Env World) ImportResult :=
  λ env, let '(r, (_, env')) := importBody filePath (mkArrays [] [] [], env) in (r, env').

End Importer.
End CsvImport.

(* ===================================================================== *)
(** ** src/services/csvReport.js                                          *)
(* ===================================================================== *)

Module CsvReport.

(** What [generateCsvReport] returns: one of its two object literals. *)
Inductive Report :=
| ReportFailure (error query : string)
    (* { success: false, error, query } *)
| ReportSuccess (filename filePath : string) (recordCount : nat)
                (fields : list string) (query : string).
    (* { success: true, filename, filePath, recordCount, fields, query } *)

Definition report_success (r : Report) : bool :=
  match r with
  | ReportFailure _ _ => false
  | ReportSuccess _ _ _ _ _ => true
  end.

Definition report_fields (r : Report) : option (list string) :=
  match r with
  | ReportFailure _ _ => None
  | ReportSuccess _ _ _ fields _ => Some fields
  end.

Section Report.
Context {World : Type} `{!Connection World} `{!CsvLib} `{!Node}.
Import SalesforceService.

(** [new Date().toISOString()] *)
Definition toISOString_now : M (Env World) string := λ env, (Ret (clock env), env).

(** The text [fast-csv] renders is piped to a write stream on [filePath]:
    the promise resolves on the stream's ['finish'], the file then holding
    the text, and rejects with the error of its ['error']. *)
Definition writeCsvFile (filePath : string)
    (data : list (list (string * option Value))) (headers : list string)
  : M (Env World) unit :=
  λ env,
    let text := csv_format headers data in
    match stream_error filePath text (files env) with
    | None =>
        (Ret tt, with_files (<[filePath := text]> (files env)) (log (EvWrite filePath) env))
    | Some (error, remains) =>
        (Throw error, with_files remains (log (EvWrite filePath) env))
    end.

Definition generateCsvReport (soql reportName dir : string) : M (Env World) Report :=
  try_catch
    ((* Execute the SOQL query *)
     queryResult ← querySalesforce soql;
     match records queryResult with
     | None | Some [] =>
         mret (ReportFailure "No records found for the specified query" soql)
     | Some ((first :: _) as recs) =>
         (* Generate a filename *)
         iso ← toISOString_now;
         let timestamp := dash_colons_dots iso in
         let filename := sanitize reportName +:+ "_" +:+ timestamp +:+ ".csv" in
         let filePath := path_join dir filename in
         (* Extract field names from the first record *)
         let fields := filter (λ field, field ≠ "attributes") (Object_keys first) in
         (* Prepare the data for CSV *)
         let csvData :=
           (λ record : SObject, (λ field, (field, prop field record)) <$> fields) <$> recs in
         (* Write the CSV file *)
         _ ← writeCsvFile filePath csvData fields;
         mret (ReportSuccess filename filePath (length recs) fields soql)
     end)
    (λ error, throw error).

End Report.
End CsvReport.

(* ===================================================================== *)
(** ** A scripted CRM and CSV library, to run the pipelines on            *)
(* ===================================================================== *)

Module Script.
Import CsvImport.

(** The CRM knows one account, "Acme"; its query endpoint is down for
    "Down"; it refuses to create the account "Closed".  Creating a contact
    whose last name is "Boom" rejects, "Bad" reports failure with two
    messages, "Odd" reports failure without an [errors] array; every other
    create succeeds and numbers the new record. *)
Definition acme : SObject :=
  [ ("attributes", VObject [("type", "Account")]); ("Id", VStr "001A") ].

Definition contactRows : list SObject :=
  [ [ ("attributes", VObject [("type", "Contact")]); ("Id", VStr "003A");
      ("LastName", VStr "Doe"); ("Email", VNull) ];
    [ ("attributes", VObject [("type", "Contact")]); ("Id", VStr "003B");
      ("LastName", VStr "Roe"); ("Email", VStr "roe@example.com") ] ].

Definition query (soql : string) (created : nat) : Settled QueryResult * nat :=
  if String.eqb soql (accountQuery "Acme") then
    (Resolve (mkQueryResult (Some [acme])), created)
  else if String.eqb soql (accountQuery "Down") then
    (Reject (mkError "INVALID_SESSION_ID"), created)
  else if String.eqb soql "SELECT Id, LastName, Email FROM Contact" then
    (Resolve (mkQueryResult (Some contactRows)), created)
  else if String.eqb soql "SELECT Id FROM Lead" then
    (Resolve (mkQueryResult None), created)
  else (Resolve (mkQueryResult (Some [])), created).

Definition new_id (prefix : string) (created : nat) : string :=
  prefix +:+ String (Ascii.ascii_of_nat (65 + created)%nat) EmptyString.

Definition create (objectName : string) (record : Obj) (created : nat)
  : Settled CreateResult * nat :=
  if String.eqb objectName "Account" then
    if bool_decide (record !! "Name" = Some "Closed") then
      (Resolve (mkCreateResult None false (Some ["INSUFFICIENT_ACCESS"])), created)
    else (Resolve (mkCreateResult (Some (new_id "001" created)) true (Some [])), S created)
  else
    match record !! "LastName" with
    | Some "Boom" => (Reject (mkError "ECONNRESET"), created)
    | Some "Bad" =>
        (Resolve (mkCreateResult None false
                    (Some ["REQUIRED_FIELD_MISSING"; "INVALID_EMAIL_ADDRESS"])), created)
    | Some "Odd" => (Resolve (mkCreateResult None false None), created)
    | _ => (Resolve (mkCreateResult (Some (new_id "003" created)) true (Some [])), S created)
    end.

#[export] Instance crm : Connection nat := {| conn_query := query; conn_create := create |}.

Definition row (fields : list (string * string)) : Obj := list_to_map fields.

(** U+00A0, the no-break space, in UTF-8. *)
Definition nbsp : string :=
  String (Ascii.ascii_of_N 0xC2) (String (Ascii.ascii_of_N 0xA0) EmptyString).

Definition ann : Obj := row [("FirstName", "Ann"); ("LastName", "Lee"); ("AccountName", "Acme")].
Definition bob : Obj := row [("FirstName", "Bob"); ("LastName", "Boom"); ("Nickname", "B")].
Definition cat : Obj := row [("FirstName", "Cat"); ("LastName", ""); ("Tier__c", "")].
Definition dan : Obj := row [("FirstName", "Dan"); ("LastName", "Bad"); ("AccountName", "Initech");
                             ("Shoe_Size", "44")].
Definition eve : Obj := row [("LastName", "Odd"); ("Email", "")].
Definition fay : Obj := row [("LastName", "Fay"); ("AccountName", "Down")].
Definition gus : Obj := row [("LastName", "Gus"); ("AccountName", "Closed")].

(** The parser is scripted by file contents. *)
Definition parse (text : string) : Settled (list Obj) :=
  if String.eqb text "contacts" then Resolve [ann; bob; cat; dan; eve]
  else if String.eqb text "oversized" then Reject (mkError "Row exceeds the maximum size")
  else Resolve [].

#[export] Instance csv : CsvLib := {| csv_parse := parse; csv_format := λ _ _, "" |}.

(** The scripts keep their files in [/tmp], a directory named without a
    separator at its end, where [path.join] puts one separator before a file
    name of one segment.  Only [/tmp] exists: a write stream on a path
    outside it fails to open and leaves the disk alone. *)
Definition joinPath (dir filename : string) : string := dir +:+ "/" +:+ filename.

Definition in_tmp (filePath : string) : bool :=
  match filePath with
  | String "/" (String "t" (String "m" (String "p" (String "/" _)))) => true
  | _ => false
  end.

Definition writeStream (filePath text : string) (files : gmap string string)
  : option (Error * gmap string string) :=
  if in_tmp filePath then None else Some (ENOENT filePath, files).

#[export] Instance node : Node := {| path_join := joinPath; stream_error := writeStream |}.

Definition disk : gmap string string :=
  {[ "/tmp/upload-1" := "contacts"; "/tmp/upload-2" := "oversized" ]}.

Definition env0 : Env nat := mkEnv 0%nat disk "2024-05-06T07:08:09.123Z" [].

(** The arrays of an import that has not processed any row yet. *)
Definition fresh : Arrays := mkArrays [] [] [].

End Script.

(* ===================================================================== *)
(** ** Reading a trace                                                    *)
(* ===================================================================== *)

(** The contact records handed to [createRecord('Contact', _)], in order. *)
Fixpoint submitted (tr : list Event) : list Obj :=
  match tr with
  | [] => []
  | EvCreate objectName record :: rest =>
      if String.eqb objectName "Contact" then record :: submitted rest
      else submitted rest
  | _ :: rest => submitted rest
  end.

(** Calls that go to the CRM, as opposed to the local disk. *)
Definition is_crm_call (ev : Event) : bool :=
  match ev with
  | EvQuery _ | EvCreate _ _ => true
  | _ => false
  end.

(** [env'] is reached from [env] through calls to the CRM only, [n] of them
    contact creations: the disk and the clock are as they were. *)
Definition crm_only {W} (n : nat) (env env' : Env W) : Prop :=
  files env' = files env ∧ clock env' = clock env
  ∧ ∃ calls, trace env' = (trace env ++ calls)
             ∧ Forall is_crm_call calls ∧ length (submitted calls) = n.

(* ===================================================================== *)
(** ** src/middleware/auth.js : authenticateAnthropicKey, and the chain    *)
(* ===================================================================== *)

Module Middleware.
Import Auth.

Definition AUTHENTICATION_REQUIRED : string :=
  "Authentication required. Please provide your Anthropic API key in the x-api-key header.".

(** Either [res.status(401).json({ error })], or [req.anthropicKey] is set
    and [next()] is called. *)
Inductive AuthOutcome :=
| Status401 (error : string)
| Authenticated (anthropicKey : string).

Definition authenticateAnthropicKey (req : Request) : AuthOutcome :=
  match x_api_key req with
  | Some apiKey =>
      if truthy (Some apiKey) then Authenticated apiKey
      else Status401 AUTHENTICATION_REQUIRED
  | None => Status401 AUTHENTICATION_REQUIRED
  end.

(** How a request leaves [app.use(path, authenticateAnthropicKey,
    rateLimiter)]: answered by one of the two, or handed to the routes. *)
Inductive Guarded :=
| Denied401 (error : string)
| Denied429 (retryAfter : Z)
| Routed (anthropicKey : string) (limit remaining reset : JSNumber).

Definition guard (req : Request) (now : Z) (requestCounts : gmap string Entry)
  : Guarded * gmap string Entry :=
  match authenticateAnthropicKey req with
  | Status401 error => (Denied401 error, requestCounts)
  | Authenticated anthropicKey =>
      match rateLimiter req now requestCounts with
      | (Status429 retryAfter, rc) => (Denied429 retryAfter, rc)
      | (Next limit remaining reset, rc) => (Routed anthropicKey limit remaining reset, rc)
      end
  end.

(** The requests of a list that were let through. *)
Definition is_next (r : Response) : bool :=
  match r with
  | Next _ _ _ => true
  | Status429 _ => false
  end.

Definition passes (rs : list Response) : nat := length (filter (λ r, is_next r = true) rs).

(** The [X-RateLimit-Remaining] header of a response is a number from 0 up
    to one less than the limit, unless it is [NaN] or the request was
    refused. *)
Definition remaining_in_range (r : Response) : Prop :=
  match r with
  | Next _ (Num remaining) _ => 0 ≤ remaining < RATE_LIMIT_MAX_REQUESTS
  | _ => True
  end.

(** Every stored entry has been counted at least once and at most up to the
    limit. *)
Definition counts_in_range (requestCounts : gmap string Entry) : Prop :=
  map_Forall (λ _ e, 1 ≤ count e ≤ RATE_LIMIT_MAX_REQUESTS) requestCounts.

End Middleware.

(* ===================================================================== *)
(** ** Reading strings and counting calls                                 *)
(* ===================================================================== *)

(** The characters of a string. *)
Definition chars (s : string) : list ascii := list_ascii_of_string s.




(** [env'] is reached from [env] by appending between [lo] and [hi] calls to
    the trace. *)
Definition calls_between {W} (lo hi : nat) (env env' : Env W) : Prop :=
  ∃ calls, trace env' = trace env ++ calls ∧ (lo ≤ length calls ≤ hi)%nat.

(* ===================================================================== *)
(** ** The language-model service and the object metadata                 *)
(* ===================================================================== *)

Definition nl : string := String (Ascii.ascii_of_nat 10) EmptyString.

Local Set Warnings "-register-all".

(** A JSON value; a number is kept as its decimal text. *)
Inductive Json :=
| JNull
| JBool (b : bool)
| JNum (literal : string)
| JStr (s : string)
| JArr (items : list Json)
| JObj (props : list (string * Json)).

(** One element of [objectMetadata.fields], as [conn.describe] gives it, and
    the object [generateReportQuery] makes of it. *)
Record FieldMeta := mkFieldMeta {
  meta_name : string; meta_label : string; meta_type : string; meta_custom : bool
}.
Record FieldInfo := mkFieldInfo {
  info_name : string; info_label : string; info_type : string; info_isCustom : bool
}.
Record Metadata := mkMetadata { meta_fields : list FieldMeta }.

(** [response.data] of the messages endpoint: the texts of its [content]
    blocks. *)
Record ClaudeData := mkClaudeData { content : list string }.

(** Calls that leave the process besides those of [Event]. *)
Inductive Outbound :=
| OutDescribe (objectName : string)
| OutClaude (body : gmap string Json) (apiKey : option string).

(** [conn.describe], [axios.post] to the messages endpoint with its body and
    its [x-api-key] header, and [JSON.stringify(_, null, 2)] at the two types
    it is used at. *)
Class Assistant (World : Type) := {
  conn_describe : string → World → Settled Metadata * World;
  axios_post : gmap string Json → option string → World → Settled ClaudeData * World;
  JSON_stringify_fields : list FieldInfo → string;
  JSON_stringify : Json → string
}.

(** The process: what [Env] holds, its environment variable and temporary
    directory, and the calls of [Outbound] made so far. *)
Record Site {World : Type} := mkSite {
  env : Env World;
  ANTHROPIC_API_KEY : option string;
  tmpdir : string;
  outbound : list Outbound
}.
Arguments Site World : clear implicits.
Arguments mkSite {World} env ANTHROPIC_API_KEY tmpdir outbound.

Definition with_env {W} (e : Env W) (site : Site W) : Site W :=
  mkSite e (ANTHROPIC_API_KEY site) (tmpdir site) (outbound site).

Definition sent {W} (call : Outbound) (site : Site W) : Site W :=
  mkSite (env site) (ANTHROPIC_API_KEY site) (tmpdir site) (outbound site ++ [call]).

(** Run a computation of the CRM and the disk inside the process. *)
Definition liftEnv {W A} (m : M (Env W) A) : M (Site W) A :=
  λ site, let '(r, e) := m (env site) in (r, with_env e site).

(* ===================================================================== *)
(** ** src/services/anthropic.js and the rest of the services             *)
(* ===================================================================== *)

Module AnthropicService.
Section Service.
Context {World : Type} `{!Assistant World}.

Definition DEFAULT_SYSTEM_PROMPT : string :=
  "You are Claude, an AI assistant by Anthropic that specializes in Salesforce data and operations.".

(** [clientApiKey || process.env.ANTHROPIC_API_KEY] *)
Definition resolveApiKey (clientApiKey : option string) : M (Site World) (option string) :=
  λ site, (Ret (if truthy clientApiKey then clientApiKey else ANTHROPIC_API_KEY site), site).

Definition post (body : gmap string Json) (apiKey : option string)
  : M (Site World) ClaudeData :=
  λ site, let '(p, w) := axios_post body apiKey (sf (env site)) in
          (await p, with_env (with_sf w (env site)) (sent (OutClaude body apiKey) site)).

(** [options] is an object or [undefined]; a destructuring default applies to
    a key that is absent.  The spread of [otherOptions] comes last in the
    body, so its keys win. *)
Definition generateClaudeResponse (prompt : string) (options : option (gmap string Json))
    (clientApiKey : option string) : M (Site World) ClaudeData :=
  let options := default ∅ options in
  let systemPrompt := default (JStr DEFAULT_SYSTEM_PROMPT) (options !! "systemPrompt") in
  let model := default (JStr "claude-3-opus-20240229") (options !! "model") in
  let maxTokens := default (JNum "1024") (options !! "maxTokens") in
  let temperature := default (JNum "0.7") (options !! "temperature") in
  let otherOptions :=
    delete "temperature" (delete "maxTokens" (delete "model"
      (delete "systemPrompt" options))) in
  try_catch
    ((* Use the client's API key if provided, otherwise use the server's *)
     apiKey ← resolveApiKey clientApiKey;
     let body : gmap string Json :=
       otherOptions ∪
       {[ "model" := model;
          "messages" := JArr [JObj [("role", JStr "user"); ("content", JStr prompt)]];
          "system" := systemPrompt;
          "max_tokens" := maxTokens;
          "temperature" := temperature ]} in
     post body apiKey)
    (λ error, throw error).

End Service.
End AnthropicService.

Module ReportQuery.
Import AnthropicService.
Section Query.
Context {World : Type} `{!Assistant World}.

(** [describeObject] of src/services/salesforce.js *)
Definition describeObject (objectName : string) : M (Site World) Metadata :=
  try_catch
    (λ site, let '(p, w) := conn_describe objectName (sf (env site)) in
             (await p, with_env (with_sf w (env site)) (sent (OutDescribe objectName) site)))
    (λ error, throw error).

Definition fieldInfo (field : FieldMeta) : FieldInfo :=
  mkFieldInfo (meta_name field) (meta_label field) (meta_type field) (meta_custom field).

Definition SOQL_SYSTEM_PROMPT : string :=
  "You are a Salesforce SOQL expert. " +:+ nl +:+
  "Generate an optimized SOQL query based on the user's report requirements. " +:+ nl +:+
  "Use only fields that exist in the object metadata provided." +:+ nl +:+
  "Format your response as a valid SOQL query string only, nothing else.".

Definition soqlUserPrompt (description objectName fieldsText optionsText : string) : string :=
  nl +:+ "I need to generate a report from Salesforce " +:+ objectName +:+ " data." +:+ nl +:+
  nl +:+ "Report Description: " +:+ description +:+ nl +:+
  nl +:+ "Available Fields:" +:+ nl +:+
  fieldsText +:+ nl +:+
  nl +:+ "Additional Options:" +:+ nl +:+
  optionsText +:+ nl +:+
  nl +:+ "Generate a complete, valid SOQL query that will retrieve the data needed for this report." +:+ nl +:+
  "The query should be well-formatted and optimized for performance." +:+ nl +:+
  "Only include fields that exist in the metadata provided." +:+ nl +:+
  "If specific sorting, grouping, or limiting is appropriate, include it." +:+ nl.

(** What [generateReportQuery] returns:
    [{ success: true, soqlQuery, objectName, description, availableFields }] *)
Record Generated := mkGenerated {
  soqlQuery : string;
  gen_objectName : string;
  gen_description : string;
  availableFields : list FieldInfo
}.

Definition TypeError_text : Error :=
  mkError "Cannot read properties of undefined (reading 'text')".

Definition generateReportQuery (description objectName : string) (options : Json)
    (clientApiKey : option string) : M (Site World) Generated :=
  try_catch
    ((* Get object metadata to know available fields *)
     objectMetadata ← describeObject objectName;
     (* Prepare fields information *)
     let fields := fieldInfo <$> meta_fields objectMetadata in
     let userPrompt :=
       soqlUserPrompt description objectName
         (JSON_stringify_fields fields) (JSON_stringify options) in
     (* Generate the query using Claude *)
     claudeResponse ← generateClaudeResponse userPrompt
                        (Some {[ "systemPrompt" := JStr SOQL_SYSTEM_PROMPT ]}) clientApiKey;
     (* Extract the query from Claude's response *)
     match content claudeResponse with
     | text :: _ => mret (mkGenerated (trim text) objectName description fields)
     | [] => throw TypeError_text
     end)
    (λ error, throw error).

End Query.
End ReportQuery.

(* ===================================================================== *)
(** ** The CSV routes and the generate route                              *)
(* ===================================================================== *)

Module Routes.
Import AnthropicService ReportQuery CsvImport CsvReport.

(** [req.file] as multer leaves it. *)
Record Upload := mkUpload { path : string; originalname : string }.

(** The body of [POST /report/contacts]. *)
Record ReportBody := mkReportBody {
  soql : option string;
  reportName : option string;
  description : option string;
  filters : option Json
}.

(** How the CSV routes answer. *)
Inductive CsvResponse :=
| ErrorJson (status : nat) (error : string)
    (* res.status(status).json({ error }) *)
| ImportJson (result : ImportResult)
| NotFoundJson (report : Report)
    (* res.status(404).json(reportResult) *)
| Download (filename : string) (body : string)
    (* Content-Disposition: attachment; filename=...; the file piped to res *)
| AnalysisJson (analysis : ClaudeData) (fileName task : string).

(** How [POST /generate] answers. *)
Inductive GenerateResponse :=
| GenerateError (status : nat) (error : string)
| GenerateJson (result : ClaudeData).

Definition ANALYSIS_SYSTEM_PROMPT : string :=
  "You are a Salesforce data analysis expert. " +:+ nl +:+
  "Analyze the provided Contacts CSV data according to the specified task." +:+ nl +:+
  "Provide clear, structured insights and actionable recommendations.".

Definition analysisUserPrompt (fileContent task : string) : string :=
  nl +:+ "Here is a Contacts CSV file:" +:+ nl +:+
  nl +:+ "```" +:+ nl +:+
  fileContent +:+ nl +:+
  "```" +:+ nl +:+
  nl +:+ "Task: " +:+ task +:+ nl +:+
  nl +:+ "Analyze this data and provide your insights." +:+ nl.

Section Handlers.
Context {World : Type} `{!Connection World} `{!CsvLib} `{!Node} `{!Assistant World}.

(** [router.post('/import/contacts', upload.single('file'), ...)] *)
Definition importContactsRoute (file : option Upload) : M (Site World) CsvResponse :=
  try_catch
    (match file with
     | None => mret (ErrorJson 400 "No CSV file uploaded")
     | Some f =>
         (* Import contacts from the CSV file *)
         result ← liftEnv (importContactsFromCSV (path f));
         mret (ImportJson result)
     end)
    (λ error, mret (ErrorJson 500 (message error))).

(** [fs.createReadStream(filePath).pipe(res)], and [fs.unlinkSync(filePath)]
    on the stream's ['end']. *)
Definition pipeAndUnlink (filePath : string) : M (Env World) string :=
  λ e,
    match files e !! filePath with
    | Some text =>
        (Ret text, with_files (delete filePath (files e))
                     (log (EvUnlink filePath) (log (EvRead filePath) e)))
    | None => (Uncaught (ENOENT filePath), e)
    end.

Definition os_tmpdir : M (Site World) string := λ site, (Ret (tmpdir site), site).

(** Lines 252-276 of the handler below: generate the report and send it. *)
Definition sendReport (queryToExecute : string) (reportName : option string)
  : M (Site World) CsvResponse :=
  (* Generate the CSV report *)
  dir ← os_tmpdir;
  reportResult ← liftEnv (generateCsvReport queryToExecute
                            (or_default reportName "Contacts_Report") dir);
  match reportResult with
  | ReportFailure _ _ => mret (NotFoundJson reportResult)
  | ReportSuccess filename filePath _ _ _ =>
      (* Return the file as a download, clean up the file when done *)
      text ← liftEnv (pipeAndUnlink filePath);
      mret (Download filename text)
  end.

(** [router.post('/report/contacts', ...)] *)
Definition reportContactsRoute (body : ReportBody) (anthropicKey : option string)
  : M (Site World) CsvResponse :=
  try_catch
    (if truthy (soql body) then
       sendReport (default "" (soql body)) (reportName body)
     else
       (* If no SOQL provided, generate one using Claude *)
       if truthy (description body) then
         queryResult ← generateReportQuery (default "" (description body)) "Contact"
                         (JObj (match filters body with
                                | Some v => [("filters", v)]
                                | None => []
                                end))
                         anthropicKey;
         sendReport (soqlQuery queryResult) (reportName body)
       else
         mret (ErrorJson 400 "Either SOQL query or report description is required"))
    (λ error, mret (ErrorJson 500 (message error))).

(** [fs.readFileSync(path, 'utf8')] *)
Definition readFileSync (filePath : string) : M (Env World) string :=
  λ e,
    match files e !! filePath with
    | Some text => (Ret text, log (EvRead filePath) e)
    | None => (Throw (ENOENT filePath), e)
    end.

(** [router.post('/analyze/contacts', upload.single('file'), ...)] *)
Definition analyzeContactsRoute (file : option Upload) (task : option string)
    (anthropicKey : option string) : M (Site World) CsvResponse :=
  try_catch
    (match file with
     | None => mret (ErrorJson 400 "No CSV file uploaded")
     | Some f =>
         if truthy task then
           (* Read the CSV file content *)
           fileContent ← liftEnv (readFileSync (path f));
           (* Use Claude to analyze the file content *)
           claudeResponse ←
             generateClaudeResponse
               (analysisUserPrompt fileContent (default "" task))
               (Some {[ "systemPrompt" := JStr ANALYSIS_SYSTEM_PROMPT ]}) anthropicKey;
           (* Clean up the uploaded file *)
           _ ← liftEnv (unlinkSync (path f));
           mret (AnalysisJson claudeResponse (originalname f) (default "" task))
         else mret (ErrorJson 400 "Analysis task is required")
     end)
    (λ error, mret (ErrorJson 500 (message error))).

(** [router.post('/generate', ...)] of src/routes/anthropic.js *)
Definition generateRoute (prompt : option string) (options : option (gmap string Json))
    (anthropicKey : option string) : M (Site World) GenerateResponse :=
  try_catch
    (if truthy prompt then
       result ← generateClaudeResponse (default "" prompt) options anthropicKey;
       mret (GenerateJson result)
     else mret (GenerateError 400 "Prompt is required"))
    (λ error, mret (GenerateError 500 (message error))).

End Handlers.
End Routes.

(* ===================================================================== *)
(** ** A scripted language model, beside the scripted CRM                 *)
(* ===================================================================== *)

Module ScriptAssistant.
Import Script.

(** Only [Contact] can be described.  The model answers every request with
    one block holding a query, blanks around it, unless the key is
    ["sk-revoked"], which it rejects. *)
Definition describe (objectName : string) (created : nat) : Settled Metadata * nat :=
  if String.eqb objectName "Contact" then
    (Resolve (mkMetadata [ mkFieldMeta "Id" "Contact ID" "id" false;
                           mkFieldMeta "Tier__c" "Tier" "picklist" true ]), created)
  else (Reject (mkError "NOT_FOUND"), created).

Definition answer (body : gmap string Json) (apiKey : option string) (created : nat)
  : Settled ClaudeData * nat :=
  match apiKey with
  | Some "sk-revoked" => (Reject (mkError "Request failed with status code 401"), created)
  | _ => (Resolve (mkClaudeData ["  SELECT Id, LastName, Email FROM Contact" +:+ nl]), created)
  end.

#[export] Instance assistant : Assistant nat := {|
  conn_describe := describe;
  axios_post := answer;
  JSON_stringify_fields := λ _, "[]";
  JSON_stringify := λ _, "{}"
|}.

Definition site0 : Site nat := mkSite env0 (Some "sk-server") "/tmp" [].

Definition upload1 : Routes.Upload := Routes.mkUpload "/tmp/upload-1" "contacts.csv".
Definition upload2 : Routes.Upload := Routes.mkUpload "/tmp/upload-2" "big.csv".

End ScriptAssistant.

(* ===================================================================== *)
(** ** src/services/salesforce.js : the shared connection                 *)
(* ===================================================================== *)

Module Session.

(** [conn.login(username, password + token)] of a new jsforce connection. *)
Class Jsforce (World : Type) := {
  conn_login : World → Settled unit * World
}.

(** The module's state: the CRM, the variable [connection] ([None] is
    [null]; a connection is named by the number of the attempt that made
    it), and the number of connections made so far. *)
Record Proc {World : Type} := mkProc {
  crm : World;
  connection : option nat;
  attempts : nat
}.
Arguments Proc World : clear implicits.
Arguments mkProc {World} crm connection attempts.

Section Session.
Context {World : Type} `{!Jsforce World}.

Definition setupSalesforce : M (Proc World) nat :=
  λ p,
    let conn := S (attempts p) in
    match conn_login (crm p) with
    | (Resolve _, w) => (Ret conn, mkProc w (Some conn) conn)
    | (Reject error, w) => (Throw error, mkProc w (connection p) conn)
    end.

Definition getConnection : M (Proc World) nat :=
  λ p,
    match connection p with
    | None => setupSalesforce p
    | Some conn => (Ret conn, p)
    end.

(** [n] calls of [getConnection], one after the other. *)
Fixpoint getConnections (n : nat) (p : Proc World) : list (Outcome nat) * Proc World :=
  match n with
  | O => ([], p)
  | S n =>
      let '(r, p1) := getConnection p in
      let '(rs, p2) := getConnections n p1 in
      (r :: rs, p2)
  end.

End Session.

(** A login that fails twice before it succeeds, scripted by the number of
    calls seen. *)
#[export] Instance flaky : Jsforce nat := {|
  conn_login := λ seen,
    if Nat.ltb seen 2 then (Reject (mkError "INVALID_LOGIN"), S seen)
    else (Resolve tt, S seen)
|}.

End Session.

(* ===================================================================== *)
(** * Properties                                                          *)
(* ===================================================================== *)

(** ** Rate limiter *)

Module AuthFacts.
Import Auth.

Lemma ceil_div_bounds (a k : Z) :
  0 ≤ a ≤ k * 1000 → 0 ≤ ceil_div a 1000 ≤ k.
Proof.
  intros [Ha Hk]. unfold ceil_div. split.
  - assert (Z.div (- a) 1000 ≤ 0); [|lia].
    apply Z.div_le_upper_bound; lia.
  - assert (- k ≤ Z.div (- a) 1000); [|lia].
    apply Z.div_le_lower_bound; lia.
Qed.

(** A key found on the prototype is served without touching the table. *)
Lemma rateLimiter_inherited req now (rc : gmap string Entry) :
  caller_key req ∈ Object_prototype_keys →
  rc !! caller_key req = None →
  rateLimiter req now rc = (Next (Num RATE_LIMIT_MAX_REQUESTS) NaN NaN, rc).
Proof.
  intros Hin Hnone. unfold rateLimiter, read_slot. rewrite Hnone.
  by rewrite bool_decide_eq_true_2.
Qed.

Lemma serve_inherited req (times : list Z) (rc : gmap string Entry) :
  caller_key req ∈ Object_prototype_keys →
  rc !! caller_key req = None →
  serve ((λ t, (req, t)) <$> times) rc
  = ((λ _, Next (Num RATE_LIMIT_MAX_REQUESTS) NaN NaN) <$> times, rc).
Proof.
  intros Hin Hnone. induction times as [|t times IH]; [done|].
  cbn [fmap list_fmap serve]. rewrite rateLimiter_inherited by done.
  change (list_fmap _ _ ?f times) with (f <$> times).
  by rewrite IH.
Qed.

(** A key with no entry, or with an entry whose window is over, starts a new
    window: the request passes and is counted as the first. *)
Lemma rateLimiter_opens_window req now (rc : gmap string Entry) :
  caller_key req ∉ Object_prototype_keys →
  (rc !! caller_key req = None
   ∨ ∃ e, rc !! caller_key req = Some e ∧ resetTime e < now) →
  rateLimiter req now rc
  = (Next (Num RATE_LIMIT_MAX_REQUESTS) (Num (RATE_LIMIT_MAX_REQUESTS - 1))
          (Num (ceil_div (now + RATE_LIMIT_WINDOW_MS) 1000)),
     <[caller_key req := mkEntry 1 (now + RATE_LIMIT_WINDOW_MS)]> rc).
Proof.
  intros Hout Hslot. unfold rateLimiter, read_slot.
  destruct Hslot as [-> | (e & -> & Hlt)].
  - by rewrite bool_decide_eq_false_2.
  - cbn. apply Z.ltb_lt in Hlt. by rewrite Hlt.
Qed.

(** Inside the window and under the limit, the request passes and the count
    goes up by one. *)
Lemma rateLimiter_counts req now (rc : gmap string Entry) e :
  rc !! caller_key req = Some e →
  now ≤ resetTime e →
  count e < RATE_LIMIT_MAX_REQUESTS →
  rateLimiter req now rc
  = (Next (Num RATE_LIMIT_MAX_REQUESTS)
          (Num (RATE_LIMIT_MAX_REQUESTS - (count e + 1)))
          (Num (ceil_div (resetTime e) 1000)),
     <[caller_key req := mkEntry (count e + 1) (resetTime e)]> rc).
Proof.
  intros Hsome Hin Hlt. unfold rateLimiter, read_slot. rewrite Hsome. cbn.
  destruct (Z.ltb_spec (resetTime e) now); [lia|].
  destruct (Z.leb_spec RATE_LIMIT_MAX_REQUESTS (count e)); [lia|done].
Qed.

(** Inside the window and at the limit, the request is refused and the table
    is left as it was. *)
Lemma rateLimiter_refuses req now (rc : gmap string Entry) e :
  rc !! caller_key req = Some e →
  now ≤ resetTime e →
  RATE_LIMIT_MAX_REQUESTS ≤ count e →
  rateLimiter req now rc
  = (Status429 (ceil_div (resetTime e - now) 1000), rc).
Proof.
  intros Hsome Hin Hge. unfold rateLimiter, read_slot. rewrite Hsome. cbn.
  destruct (Z.ltb_spec (resetTime e) now); [lia|].
  destruct (Z.leb_spec RATE_LIMIT_MAX_REQUESTS (count e)); [|lia].
  by rewrite insert_id.
Qed.

(** Requests of other callers leave a caller's entry alone. *)
Lemma rateLimiter_other_key req now (rc : gmap string Entry) key :
  key ≠ caller_key req →
  (rateLimiter req now rc).2 !! key = rc !! key.
Proof.
  intros Hne. unfold rateLimiter.
  destruct (read_slot rc (caller_key req)) as [e| |]; cbn; [|done|].
  - destruct (resetTime e <? now); cbn.
    + by rewrite lookup_insert_ne.
    + destruct (RATE_LIMIT_MAX_REQUESTS <=? count e); cbn; by rewrite lookup_insert_ne.
  - by rewrite lookup_insert_ne.
Qed.

Ltac limiter_step lem :=
  cbn [serve];
  erewrite lem; [| apply lookup_insert_eq | cbn; lia | cbn; unfold RATE_LIMIT_MAX_REQUESTS; lia ];
  cbn [count resetTime]; rewrite ?insert_insert_eq.

(** For a caller whose key is not a name found on the prototype: the first
    five requests of a window pass with the headers set, a sixth inside the
    same window is refused with [retryAfter] between 0 and 60 seconds, and
    the first request after the window is over opens a new window with the
    count back at zero before it is counted. *)
Lemma rateLimiter_window req (rc : gmap string Entry) t1 t2 t3 t4 t5 t6 t7 :
  caller_key req ∉ Object_prototype_keys →
  (rc !! caller_key req = None
   ∨ ∃ e, rc !! caller_key req = Some e ∧ resetTime e < t1) →
  Forall (λ t, t1 ≤ t ≤ t1 + RATE_LIMIT_WINDOW_MS) [t2; t3; t4; t5; t6] →
  t1 + RATE_LIMIT_WINDOW_MS < t7 →
  ∃ retryAfter,
    serve ((λ t, (req, t)) <$> [t1; t2; t3; t4; t5; t6; t7]) rc
    = ([ Next (Num 5) (Num 4) (Num (ceil_div (t1 + RATE_LIMIT_WINDOW_MS) 1000));
         Next (Num 5) (Num 3) (Num (ceil_div (t1 + RATE_LIMIT_WINDOW_MS) 1000));
         Next (Num 5) (Num 2) (Num (ceil_div (t1 + RATE_LIMIT_WINDOW_MS) 1000));
         Next (Num 5) (Num 1) (Num (ceil_div (t1 + RATE_LIMIT_WINDOW_MS) 1000));
         Next (Num 5) (Num 0) (Num (ceil_div (t1 + RATE_LIMIT_WINDOW_MS) 1000));
         Status429 retryAfter;
         Next (Num 5) (Num 4) (Num (ceil_div (t7 + RATE_LIMIT_WINDOW_MS) 1000)) ],
       <[caller_key req := mkEntry 1 (t7 + RATE_LIMIT_WINDOW_MS)]> rc)
    ∧ 0 ≤ retryAfter ≤ RATE_LIMIT_WINDOW_MS / 1000.
Proof.
  intros Hout Hslot Hwin Hafter.
  repeat (apply Forall_cons in Hwin as [? Hwin]).
  exists (ceil_div (t1 + RATE_LIMIT_WINDOW_MS - t6) 1000). split.
  - cbn [fmap list_fmap serve].
    rewrite rateLimiter_opens_window by done.
    do 4 limiter_step rateLimiter_counts.
    limiter_step rateLimiter_refuses.
    rewrite rateLimiter_opens_window.
    + by rewrite insert_insert_eq.
    + done.
    + right. eexists. split; [apply lookup_insert_eq|]. cbn. lia.
  - change (RATE_LIMIT_WINDOW_MS / 1000) with 60.
    apply ceil_div_bounds. unfold RATE_LIMIT_WINDOW_MS in *. lia.
Qed.

Lemma rateLimiter_window_witness :
  ∃ retryAfter,
    (serve ((λ t, (mkRequest (Some "sk-ant-1") "10.0.0.7", t))
              <$> [1000; 2000; 2500; 30000; 61000; 61000; 61001]) ∅).1 !! 5%nat
    = Some (Status429 retryAfter) ∧ 0 ≤ retryAfter ≤ 60.
Proof.
  destruct (rateLimiter_window (mkRequest (Some "sk-ant-1") "10.0.0.7") ∅
              1000 2000 2500 30000 61000 61000 61001) as (ra & Heq & Hra).
  - vm_compute. intros H. repeat (apply elem_of_cons in H as [H|H]; [discriminate|]).
    by apply elem_of_nil in H.
  - by left.
  - repeat (constructor; [unfold RATE_LIMIT_WINDOW_MS; lia|]). constructor.
  - unfold RATE_LIMIT_WINDOW_MS; lia.
  - exists ra. by rewrite Heq.
Defined.

(** C8 — the rate limiter does not limit every caller key.  A caller whose
    key is the name of a property that [requestCounts] inherits from its
    prototype (here the header [x-api-key: constructor]) is never counted:
    the sixth request of a window, which should be answered 429, passes like
    the first five, with [NaN] in the remaining and reset headers. *)
Theorem rateLimiter_constructor_key_not_limited :
  serve ((λ t, (mkRequest (Some "constructor") "10.0.0.7", t))
           <$> [1000; 2000; 3000; 4000; 5000; 6000]) ∅
  = ([ Next (Num 5) NaN NaN; Next (Num 5) NaN NaN; Next (Num 5) NaN NaN;
       Next (Num 5) NaN NaN; Next (Num 5) NaN NaN; Next (Num 5) NaN NaN ], ∅).
Proof.
  rewrite serve_inherited; [done| |done].
  cbn. apply list_elem_of_here.
Qed.

End AuthFacts.

(** ** Field mapping *)

Module MapFacts.
Import CsvImport.

Lemma truthy_Some (v : option string) :
  truthy v = true ↔ ∃ s, v = Some s ∧ s ≠ "".
Proof.
  destruct v as [s|]; cbn.
  - destruct (String.eqb_spec s ""); cbn; naive_solver.
  - naive_solver.
Qed.

Lemma assign_lookup field (src dst : Obj) k :
  assign field src dst !! k
  = if bool_decide (k = field) then
      match src !! k with Some v => Some v | None => dst !! k end
    else dst !! k.
Proof.
  unfold assign. case_bool_decide as Hk.
  - subst k. destruct (src !! field); [apply lookup_insert_eq|done].
  - destruct (src !! field); [by rewrite lookup_insert_ne|done].
Qed.

Lemma assign_if_truthy_lookup (csv acc : Obj) field k :
  assign_if_truthy csv acc field !! k
  = if bool_decide (k = field) && truthy (csv !! k) then csv !! k else acc !! k.
Proof.
  unfold assign_if_truthy. case_bool_decide as Hk; cbn.
  - subst k. destruct (truthy (csv !! field)) eqn:Ht; [|done].
    rewrite assign_lookup, bool_decide_eq_true_2 by done.
    apply truthy_Some in Ht as (s & -> & _). done.
  - destruct (truthy (csv !! field)); [|done].
    by rewrite assign_lookup, bool_decide_eq_false_2.
Qed.

Lemma foldl_assign_if_truthy_lookup (csv : Obj) fields (acc : Obj) k :
  foldl (assign_if_truthy csv) acc fields !! k
  = if bool_decide (k ∈ fields) && truthy (csv !! k) then csv !! k else acc !! k.
Proof.
  revert acc. induction fields as [|f fields IH]; intros acc; cbn [foldl].
  - by rewrite bool_decide_eq_false_2 by apply not_elem_of_nil.
  - rewrite IH, assign_if_truthy_lookup.
    destruct (truthy (csv !! k)); rewrite ?andb_true_r, ?andb_false_r; [|done].
    repeat case_bool_decide; set_solver.
Qed.

Lemma assign_if_custom_lookup (csv acc : Obj) key k :
  assign_if_custom csv acc key !! k
  = if bool_decide (k = key) && endsWith k "__c" then
      match csv !! k with Some v => Some v | None => acc !! k end
    else acc !! k.
Proof.
  unfold assign_if_custom. case_bool_decide as Hk; cbn.
  - subst k. destruct (endsWith key "__c"); [|done].
    by rewrite assign_lookup, bool_decide_eq_true_2.
  - destruct (endsWith key "__c"); [|done].
    by rewrite assign_lookup, bool_decide_eq_false_2.
Qed.

Lemma foldl_assign_if_custom_lookup (csv : Obj) keys (acc : Obj) k :
  foldl (assign_if_custom csv) acc keys !! k
  = if bool_decide (k ∈ keys) && endsWith k "__c" then
      match csv !! k with Some v => Some v | None => acc !! k end
    else acc !! k.
Proof.
  revert acc. induction keys as [|key keys IH]; intros acc; cbn [foldl].
  - by rewrite bool_decide_eq_false_2 by apply not_elem_of_nil.
  - rewrite IH, assign_if_custom_lookup.
    destruct (endsWith k "__c"); rewrite ?andb_true_r, ?andb_false_r; [|done].
    destruct (csv !! k); repeat case_bool_decide; set_solver.
Qed.

Lemma elem_of_keys (csv : Obj) k :
  k ∈ (map_to_list csv).*1 ↔ is_Some (csv !! k).
Proof.
  rewrite list_elem_of_fmap. split.
  - intros ([k' v] & -> & Hin). apply elem_of_map_to_list in Hin. by eexists.
  - intros [v Hv]. exists (k, v). split; [done|]. by apply elem_of_map_to_list.
Qed.

Lemma mailing_block_lookup (csv acc : Obj) k :
  (if truthy (csv !! "MailingStreet") || truthy (csv !! "MailingCity")
      || truthy (csv !! "MailingState") || truthy (csv !! "MailingPostalCode")
      || truthy (csv !! "MailingCountry")
   then foldl (assign_if_truthy csv) acc mailingFields else acc) !! k
  = if bool_decide (k ∈ mailingFields) && truthy (csv !! k) then csv !! k else acc !! k.
Proof.
  destruct (_ || _) eqn:Hany.
  - apply foldl_assign_if_truthy_lookup.
  - repeat (apply orb_false_elim in Hany as [Hany ?]).
    case_bool_decide as Hin; [|done].
    unfold mailingFields in Hin.
    repeat (apply elem_of_cons in Hin as [->|Hin];
            [match goal with H : truthy _ = false |- _ => by rewrite H end|]).
    by apply elem_of_nil in Hin.
Qed.

Lemma custom_key_not_fixed k :
  endsWith k "__c" = true → k ≠ "LastName" ∧ k ∉ optionalFields.
Proof.
  intros Hc. split; [by intros ->|]. intros Hin.
  unfold optionalFields, standardFields, mailingFields in Hin. cbn in Hin.
  repeat (apply elem_of_cons in Hin as [->|Hin]; [by vm_compute in Hc|]).
  by apply elem_of_nil in Hin.
Qed.

Lemma LastName_not_optional : "LastName" ∉ optionalFields.
Proof.
  intros Hin. unfold optionalFields, standardFields, mailingFields in Hin. cbn in Hin.
  repeat (apply elem_of_cons in Hin as [Hin|Hin]; [discriminate|]).
  by apply elem_of_nil in Hin.
Qed.

(** What [mapContactFields] leaves under each key. *)
Lemma mapContactFields_lookup (csv : Obj) k :
  mapContactFields csv !! k
  = if endsWith k "__c" then csv !! k
    else if bool_decide (k = "LastName") then
      Some (or_default (csv !! "LastName") "Unknown")
    else if bool_decide (k ∈ optionalFields) && truthy (csv !! k) then csv !! k
    else None.
Proof.
  unfold mapContactFields.
  rewrite foldl_assign_if_custom_lookup, assign_if_truthy_lookup,
    mailing_block_lookup, foldl_assign_if_truthy_lookup.
  destruct (endsWith k "__c") eqn:Hc; rewrite ?andb_true_r, ?andb_false_r.
  - destruct (custom_key_not_fixed k Hc) as [HL Hopt].
    destruct (csv !! k) as [v|] eqn:Hk.
    + rewrite bool_decide_eq_true_2; [done|]. apply elem_of_keys. by eexists.
    + cbn [truthy]. rewrite !andb_false_r, lookup_singleton_ne by done.
      by destruct (bool_decide _).
  - destruct (decide (k = "LastName")) as [->|HL].
    + pose proof LastName_not_optional as Hopt. unfold optionalFields in Hopt.
      rewrite (bool_decide_eq_true_2 ("LastName" = "LastName")) by done.
      rewrite !bool_decide_eq_false_2 by set_solver.
      cbn [andb]. apply lookup_singleton_eq.
    + rewrite (bool_decide_eq_false_2 (k = "LastName")), lookup_singleton_ne by done.
      destruct (truthy (csv !! k)); rewrite ?andb_true_r, ?andb_false_r; [|done].
      unfold optionalFields. repeat case_bool_decide; set_solver.
Qed.

(** C5 — a row whose [LastName] is absent or empty is mapped to a candidate
    record whose [LastName] is the placeholder ["Unknown"]; a row with a
    non-empty [LastName] keeps that value. *)
Theorem mapContactFields_LastName (csvContact : Obj) :
  (csvContact !! "LastName" = None ∨ csvContact !! "LastName" = Some "" →
   mapContactFields csvContact !! "LastName" = Some "Unknown")
  ∧ (∀ v, csvContact !! "LastName" = Some v → v ≠ "" →
     mapContactFields csvContact !! "LastName" = Some v).
Proof.
  rewrite mapContactFields_lookup. cbn. split.
  - by intros [-> | ->].
  - intros v -> Hv. cbn. by destruct (String.eqb_spec v "").
Qed.

Lemma mapContactFields_LastName_witness :
  mapContactFields Script.cat !! "LastName" = Some "Unknown"
  ∧ mapContactFields Script.ann !! "LastName" = Some "Lee".
Proof.
  split.
  - apply (proj1 (mapContactFields_LastName Script.cat)). right. reflexivity.
  - apply (proj2 (mapContactFields_LastName Script.ann) "Lee"); [reflexivity|discriminate].
Defined.

(** C10 — empty values are treated asymmetrically.  A standard or mailing
    field whose CSV value is the empty string is left out of the candidate
    record; a column whose key ends in [__c] is copied whatever its value,
    the empty string included; and a key that is neither a standard field
    (the required [LastName] and the seven optional ones), nor a mailing
    field, nor [AccountName], nor a [__c] key, never reaches the candidate
    record. *)
Theorem mapContactFields_empty_values (csvContact : Obj) :
  (∀ field, field ∈ (standardFields ++ mailingFields) →
     csvContact !! field = Some "" →
     mapContactFields csvContact !! field = None)
  ∧ (∀ key, endsWith key "__c" = true →
     mapContactFields csvContact !! key = csvContact !! key)
  ∧ (∀ key, key ∉ ("LastName" :: standardFields ++ mailingFields ++ ["AccountName"]) →
     endsWith key "__c" = false →
     mapContactFields csvContact !! key = None).
Proof.
  split; [|split].
  - intros field Hin Hempty. rewrite mapContactFields_lookup, Hempty.
    assert (endsWith field "__c" = false) as ->.
    { destruct (endsWith field "__c") eqn:Hc; [|done].
      apply custom_key_not_fixed in Hc as [_ Hopt].
      exfalso. apply Hopt. unfold optionalFields. set_solver. }
    rewrite bool_decide_eq_false_2; [by rewrite andb_false_r|].
    intros ->. apply LastName_not_optional. unfold optionalFields. set_solver.
  - intros key Hc. by rewrite mapContactFields_lookup, Hc.
  - intros key Hout Hc. rewrite mapContactFields_lookup, Hc.
    rewrite (bool_decide_eq_false_2 (key = "LastName")) by set_solver.
    rewrite (bool_decide_eq_false_2 (key ∈ optionalFields)); [done|].
    unfold optionalFields. set_solver.
Qed.

Lemma mapContactFields_empty_values_witness :
  mapContactFields Script.eve !! "Email" = None
  ∧ mapContactFields Script.cat !! "Tier__c" = Some ""
  ∧ mapContactFields Script.dan !! "Shoe_Size" = None.
Proof.
  split; [|split].
  - apply (proj1 (mapContactFields_empty_values Script.eve)); [|reflexivity].
    unfold standardFields. set_solver.
  - rewrite (proj1 (proj2 (mapContactFields_empty_values Script.cat))); reflexivity.
  - apply (proj2 (proj2 (mapContactFields_empty_values Script.dan))); [|reflexivity].
    intros Hin. unfold standardFields, mailingFields in Hin. cbn in Hin.
    repeat (apply elem_of_cons in Hin as [Hin|Hin]; [discriminate|]).
    by apply elem_of_nil in Hin.
Defined.

End MapFacts.

(** ** Running the effect monad *)

(** Evaluate a closed run once and keep the equation. *)
Ltac run_as H t :=
  let v := eval vm_compute in t in
  assert (H : t = v) by (vm_compute; reflexivity).

Lemma bind_run {S A B} (m : M S A) (f : A → M S B) (s : S) :
  (m ≫= f) s
  = match m s with
    | (Ret a, s') => f a s'
    | (Throw e, s') => (Throw e, s')
    | (Uncaught e, s') => (Uncaught e, s')
    end.
Proof. reflexivity. Qed.

Lemma try_rethrow_run {S A} (m : M S A) (s : S) :
  try_catch m (λ error, throw error) s = m s.
Proof. unfold try_catch, throw. by destruct (m s) as [[a|e|e] s']. Qed.

Lemma submitted_app tr1 tr2 : submitted (tr1 ++ tr2) = submitted tr1 ++ submitted tr2.
Proof.
  induction tr1 as [|ev tr1 IH]; [done|].
  destruct ev as [|objectName record| | |]; cbn; try done.
  destruct (String.eqb objectName "Contact"); cbn; by rewrite IH.
Qed.

(** ** The CRM service wrappers *)

Module ServiceFacts.
Import SalesforceService.
Section Service.
Context {World : Type} `{!Connection World}.

Lemma querySalesforce_run soql (env : Env World) :
  querySalesforce soql env
  = (await (conn_query soql (sf env)).1,
     with_sf (conn_query soql (sf env)).2 (log (EvQuery soql) env)).
Proof.
  unfold querySalesforce. rewrite try_rethrow_run.
  by destruct (conn_query soql (sf env)).
Qed.

Lemma createRecord_run objectName record (env : Env World) :
  createRecord objectName record env
  = (await (conn_create objectName record (sf env)).1,
     with_sf (conn_create objectName record (sf env)).2
             (log (EvCreate objectName record) env)).
Proof.
  unfold createRecord. rewrite try_rethrow_run.
  by destruct (conn_create objectName record (sf env)).
Qed.

End Service.
End ServiceFacts.

(** ** The import pipeline *)

Module ImportFacts.
Import SalesforceService CsvImport ServiceFacts MapFacts.
Section Importer.
Context {World : Type} `{!Connection World} `{!CsvLib}.

(** [findOrCreateAccount] never throws; this is what it returns and what it
    calls, by the answers of the CRM. *)
Lemma findOrCreateAccount_run accountName (env : Env World) :
  let q := accountQuery accountName in
  let env1 := with_sf (conn_query q (sf env)).2 (log (EvQuery q) env) in
  let account : Obj := {[ "Name" := accountName ]} in
  let env2 := with_sf (conn_create "Account" account (sf env1)).2
                      (log (EvCreate "Account" account) env1) in
  findOrCreateAccount accountName env
  = match (conn_query q (sf env)).1 with
    | Reject _ => (Ret None, env1)
    | Resolve result =>
        match records result with
        | Some (first :: _) => (Ret (prop_Id first), env1)
        | _ =>
            match (conn_create "Account" account (sf env1)).1 with
            | Reject _ => (Ret None, env2)
            | Resolve createResult =>
                (Ret (if success createResult then res_id createResult else None), env2)
            end
        end
    end.
Proof.
  cbn zeta. unfold findOrCreateAccount, try_catch.
  rewrite bind_run, querySalesforce_run.
  destruct (conn_query _ (sf env)) as [[result|e] w]; cbn [fst snd await]; [|done].
  destruct (records result) as [[|first rest]|]; [|done|];
    rewrite bind_run, createRecord_run; cbn [sf with_sf log];
    destruct (conn_create _ _ w) as [[createResult|e] w']; cbn [fst snd await];
    try done; by destruct (success createResult).
Qed.

Lemma crm_only_refl (env : Env World) : crm_only 0 env env.
Proof. split_and!; try done. exists []. by rewrite app_nil_r. Qed.

Lemma crm_only_trans n m (env1 env2 env3 : Env World) :
  crm_only n env1 env2 → crm_only m env2 env3 → crm_only (n + m) env1 env3.
Proof.
  intros (Hf1 & Hc1 & calls1 & Ht1 & Hcrm1 & Hn) (Hf2 & Hc2 & calls2 & Ht2 & Hcrm2 & Hm).
  split_and!; [congruence..|]. exists (calls1 ++ calls2). split_and!.
  - by rewrite Ht2, Ht1, (assoc_L (++)).
  - by apply Forall_app.
  - rewrite submitted_app, length_app. by rewrite Hn, Hm.
Qed.

Lemma crm_only_query soql w (env : Env World) :
  crm_only 0 env (with_sf w (log (EvQuery soql) env)).
Proof. split_and!; try done. exists [EvQuery soql]. by repeat constructor. Qed.

Lemma crm_only_create objectName record w (env : Env World) :
  crm_only (if String.eqb objectName "Contact" then 1 else 0)
           env (with_sf w (log (EvCreate objectName record) env)).
Proof.
  split_and!; try done. exists [EvCreate objectName record]. split_and!; try done.
  - by repeat constructor.
  - cbn. by destruct (String.eqb objectName "Contact").
Qed.

Lemma findOrCreateAccount_returns accountName (env : Env World) :
  ∃ accountId env',
    findOrCreateAccount accountName env = (Ret accountId, env') ∧ crm_only 0 env env'.
Proof.
  rewrite findOrCreateAccount_run. cbn zeta.
  set (q := accountQuery accountName).
  set (account := {[ "Name" := accountName ]} : Obj).
  pose proof (crm_only_query q (conn_query q (sf env)).2 env) as Hquery.
  assert (Hcreate : ∀ w, crm_only 0 env
    (with_sf w (log (EvCreate "Account" account)
                    (with_sf (conn_query q (sf env)).2 (log (EvQuery q) env))))).
  { intros w. apply (crm_only_trans 0 0 _ _ _ Hquery), (crm_only_create "Account"). }
  destruct (conn_query q (sf env)).1 as [result|e]; [|by eexists _, _].
  destruct (records result) as [[|first rest]|]; [|by eexists _, _|];
    destruct (conn_create _ _ _).1; by eexists _, _.
Qed.

Lemma resolveAccount_run (contactRecord : Obj) (env : Env World) :
  resolveAccount contactRecord env
  = match contactRecord !! "AccountName" with
    | Some accountName =>
        if truthy (Some accountName) then
          match findOrCreateAccount accountName env with
          | (Ret accountId, env') =>
              (Ret (delete "AccountName" (attachAccountId accountId contactRecord)), env')
          | (Throw e, env') => (Throw e, env')
          | (Uncaught e, env') => (Uncaught e, env')
          end
        else (Ret contactRecord, env)
    | None => (Ret contactRecord, env)
    end.
Proof.
  unfold resolveAccount. destruct (contactRecord !! "AccountName") as [name|]; [|done].
  destruct (truthy (Some name)); [|done]. by rewrite bind_run.
Qed.

Lemma resolveAccount_returns (contactRecord : Obj) (env : Env World) :
  ∃ resolved env',
    resolveAccount contactRecord env = (Ret resolved, env') ∧ crm_only 0 env env'.
Proof.
  rewrite resolveAccount_run. pose proof (crm_only_refl env) as Hstay.
  destruct (contactRecord !! "AccountName") as [name|]; [|by eexists _, _].
  destruct (truthy (Some name)); [|by eexists _, _].
  destruct (findOrCreateAccount_returns name env) as (aid & env' & -> & ?).
  by eexists _, _.
Qed.

Lemma lift_run {A} (m : M (Env World) A) arr env :
  lift m (arr, env) = ((m env).1, (arr, (m env).2)).
Proof. unfold lift. by destruct (m env). Qed.

(** The inner [try] block, unfolded by the answer of the CRM to the contact
    creation. *)
Lemma tryContact_run contact arr (env : Env World) resolved env1 :
  resolveAccount (mapContactFields contact) env = (Ret resolved, env1) →
  let env2 := with_sf (conn_create "Contact" resolved (sf env1)).2
                      (log (EvCreate "Contact" resolved) env1) in
  tryContact contact (arr, env)
  = match (conn_create "Contact" resolved (sf env1)).1 with
    | Reject e => (Throw e, (arr, env2))
    | Resolve result =>
        if success result then
          (Ret tt,
           (mkArrays (results arr ++ [result]) (errors arr)
              (successfulRecords arr
                 ++ [mkSuccessEntry (res_id result) (displayName resolved)]), env2))
        else
          match res_errors result with
          | Some errs =>
              (Ret tt,
               (mkArrays (results arr ++ [result])
                  (errors arr ++ [mkErrorEntry resolved (join ", " errs)])
                  (successfulRecords arr), env2))
          | None => (Throw TypeError_join, (arr, env2))
          end
    end.
Proof.
  intros Hres. cbn zeta. unfold tryContact.
  rewrite bind_run, lift_run, Hres. cbn [fst snd].
  rewrite bind_run, lift_run, createRecord_run. cbn [fst snd].
  destruct (conn_create "Contact" resolved (sf env1)) as [[result|e] w];
    cbn [fst snd await]; [|done].
  rewrite bind_run. destruct (success result); [done|].
  by destruct (res_errors result).
Qed.

(** The inner [try] with its [catch]. *)
Lemma processContact_run contact arr (env : Env World) resolved env1 :
  resolveAccount (mapContactFields contact) env = (Ret resolved, env1) →
  let env2 := with_sf (conn_create "Contact" resolved (sf env1)).2
                      (log (EvCreate "Contact" resolved) env1) in
  let caught e :=
    (Ret tt, (mkArrays (results arr)
                (errors arr ++ [mkErrorEntry contact (message e)])
                (successfulRecords arr), env2)) in
  processContact contact (arr, env)
  = match (conn_create "Contact" resolved (sf env1)).1 with
    | Reject e => caught e
    | Resolve result =>
        if success result then
          (Ret tt,
           (mkArrays (results arr ++ [result]) (errors arr)
              (successfulRecords arr
                 ++ [mkSuccessEntry (res_id result) (displayName resolved)]), env2))
        else
          match res_errors result with
          | Some errs =>
              (Ret tt,
               (mkArrays (results arr ++ [result])
                  (errors arr ++ [mkErrorEntry resolved (join ", " errs)])
                  (successfulRecords arr), env2))
          | None => caught TypeError_join
          end
    end.
Proof.
  intros Hres. cbn zeta. unfold processContact, try_catch.
  rewrite (tryContact_run _ _ _ _ _ Hres). cbn zeta.
  destruct (conn_create "Contact" resolved (sf env1)).1 as [result|e]; [|done].
  destruct (success result); [done|]. by destruct (res_errors result).
Qed.

(** A caught exception leaves exactly the entry of the [catch] clause. *)
Lemma processContact_caught contact (s s1 : Arrays * Env World) e :
  tryContact contact s = (Throw e, s1) →
  processContact contact s
  = (Ret tt, (mkArrays (results s1.1)
                (errors s1.1 ++ [mkErrorEntry contact (message e)])
                (successfulRecords s1.1), s1.2)).
Proof.
  intros Htry. unfold processContact, try_catch. rewrite Htry.
  by destruct s1 as [arr1 env1].
Qed.

(** Each row makes exactly one contact creation call and leaves exactly one
    entry, in one of the two lists; the loop body never throws. *)
Lemma processContact_returns contact arr (env : Env World) :
  ∃ arr' env',
    processContact contact (arr, env) = (Ret tt, (arr', env'))
    ∧ crm_only 1 env env'
    ∧ ((∃ r, successfulRecords arr' = (successfulRecords arr ++ [r]))
         ∧ errors arr' = errors arr
       ∨ (∃ e, errors arr' = (errors arr ++ [e]))
         ∧ successfulRecords arr' = successfulRecords arr).
Proof.
  destruct (resolveAccount_returns (mapContactFields contact) env)
    as (resolved & env1 & Hres & Hcalls).
  rewrite (processContact_run _ _ _ _ _ Hres). cbn zeta.
  pose proof (crm_only_trans 0 1 _ _ _ Hcalls
    (crm_only_create "Contact" resolved
       (conn_create "Contact" resolved (sf env1)).2 env1)) as Hcrm.
  destruct (conn_create "Contact" resolved (sf env1)).1 as [result|e].
  - destruct (success result); [|destruct (res_errors result)];
      eexists _, _; (split; [done|]); (split; [done|]); cbn; eauto.
  - eexists _, _; (split; [done|]); (split; [done|]); cbn; eauto.
Qed.

Lemma forOf_processContact_returns contacts arr (env : Env World) :
  ∃ arr' env',
    forOf contacts processContact (arr, env) = (Ret tt, (arr', env'))
    ∧ crm_only (length contacts) env env'
    ∧ (length (successfulRecords arr') + length (errors arr')
       = length (successfulRecords arr) + length (errors arr) + length contacts)%nat
    ∧ errors arr `prefix_of` errors arr'.
Proof.
  revert arr env. induction contacts as [|contact contacts IH]; intros arr env.
  - exists arr, env. split_and!; [done|apply crm_only_refl|cbn; lia|done].
  - destruct (processContact_returns contact arr env) as (arr1 & env1 & Hrun & Hcrm & Hone).
    destruct (IH arr1 env1) as (arr' & env' & Hrest & Hcrm' & Hlen & Hpre).
    exists arr', env'. cbn [forOf]. rewrite bind_run, Hrun. split_and!.
    + done.
    + apply (crm_only_trans 1 (length contacts) _ _ _ Hcrm Hcrm').
    + destruct Hone as [[[r Hs] He] | [[e He] Hs]];
        rewrite Hs, He, ?length_app in Hlen; cbn in *; lia.
    + etrans; [|exact Hpre].
      destruct Hone as [[_ ->] | [[e ->] _]]; [done|]. by apply prefix_app_r.
Qed.

Lemma forOf_app {S A} (xs ys : list A) (body : A → M S unit) (s : S) :
  forOf (xs ++ ys) body s
  = match forOf xs body s with
    | (Ret _, s') => forOf ys body s'
    | r => r
    end.
Proof.
  revert s. induction xs as [|x xs IH]; intros s; [done|].
  cbn [app forOf]. rewrite !bind_run.
  destruct (body x s) as [[[]|e|e] s']; [apply IH|done..].
Qed.

(** The three ways a call of [importContactsFromCSV] can go. *)
Lemma import_parsed filePath (env : Env World) text contacts :
  files env !! filePath = Some text →
  csv_parse text = Resolve contacts →
  ∃ arr env1,
    forOf contacts processContact (mkArrays [] [] [], log (EvRead filePath) env)
    = (Ret tt, (arr, env1))
    ∧ crm_only (length contacts) (log (EvRead filePath) env) env1
    ∧ (length (successfulRecords arr) + length (errors arr) = length contacts)%nat
    ∧ importContactsFromCSV filePath env
      = (Ret (mkImportResult (length contacts) (length (successfulRecords arr))
                (length (errors arr)) (successfulRecords arr) (errors arr)),
         with_files (delete filePath (files env)) (log (EvUnlink filePath) env1)).
Proof.
  intros Hfile Hparse.
  destruct (forOf_processContact_returns contacts (mkArrays [] [] [])
              (log (EvRead filePath) env)) as (arr & env1 & Hloop & Hcrm & Hlen & _).
  exists arr, env1. split_and!; [done..|].
  unfold importContactsFromCSV, importBody. rewrite try_rethrow_run.
  rewrite bind_run, lift_run. unfold readContacts. rewrite Hfile, Hparse.
  cbn [fst snd await]. rewrite bind_run, Hloop.
  rewrite bind_run, lift_run. unfold unlinkSync.
  destruct Hcrm as (Hfiles & _). cbn [files log] in Hfiles. rewrite Hfiles, Hfile.
  cbn [fst snd]. by rewrite bind_run.
Qed.

Lemma import_rejected filePath (env : Env World) text e :
  files env !! filePath = Some text →
  csv_parse text = Reject e →
  importContactsFromCSV filePath env = (Throw e, log (EvRead filePath) env).
Proof.
  intros Hfile Hparse. unfold importContactsFromCSV, importBody.
  rewrite try_rethrow_run, bind_run, lift_run. unfold readContacts.
  by rewrite Hfile, Hparse.
Qed.

Lemma import_unopened filePath (env : Env World) :
  files env !! filePath = None →
  importContactsFromCSV filePath env = (Uncaught (ENOENT filePath), env).
Proof.
  intros Hfile. unfold importContactsFromCSV, importBody.
  rewrite try_rethrow_run, bind_run, lift_run. unfold readContacts.
  by rewrite Hfile.
Qed.

Lemma import_returned filePath (env env' : Env World) result :
  importContactsFromCSV filePath env = (Ret result, env') →
  ∃ text contacts, files env !! filePath = Some text ∧ csv_parse text = Resolve contacts.
Proof.
  intros Hrun. destruct (files env !! filePath) as [text|] eqn:Hfile.
  - destruct (csv_parse text) as [contacts|e] eqn:Hparse; [by eauto|].
    by rewrite (import_rejected _ _ _ _ Hfile Hparse) in Hrun.
  - by rewrite (import_unopened _ _ Hfile) in Hrun.
Qed.

(** C2 — whenever an import returns, its aggregate satisfies
    [totalProcessed = successful + failed], [successful] is the length of
    [successfulRecords] and [failed] is the length of [errors]. *)
Theorem importContactsFromCSV_counts filePath (env env' : Env World) result :
  importContactsFromCSV filePath env = (Ret result, env') →
  totalProcessed result = (successful result + failed result)%nat
  ∧ successful result = length (out_successfulRecords result)
  ∧ failed result = length (out_errors result).
Proof.
  intros Hrun.
  destruct (import_returned _ _ _ _ Hrun) as (text & contacts & Hfile & Hparse).
  destruct (import_parsed _ _ _ _ Hfile Hparse) as (arr & env1 & _ & _ & Hlen & Heq).
  rewrite Heq in Hrun. injection Hrun as <- <-. cbn. by rewrite Hlen.
Qed.


(** C1 — an exception raised while row [i] is mapped or submitted is
    caught: the row leaves the entry of the [catch] clause at the end of
    [errors], the loop goes on, every row of the file gets its contact
    creation call, and the aggregate is returned with that entry in it. *)
Theorem importContactsFromCSV_row_isolation
    filePath (env : Env World) text before contact after s_i s_thrown e :
  files env !! filePath = Some text →
  csv_parse text = Resolve (before ++ contact :: after) →
  forOf before processContact (mkArrays [] [] [], log (EvRead filePath) env)
  = (Ret tt, s_i) →
  tryContact contact s_i = (Throw e, s_thrown) →
  (∃ s_next, processContact contact s_i = (Ret tt, s_next)
     ∧ errors s_next.1 = (errors s_i.1 ++ [mkErrorEntry contact (message e)]))
  ∧ ∃ result env',
      importContactsFromCSV filePath env = (Ret result, env')
      ∧ mkErrorEntry contact (message e) ∈ out_errors result
      ∧ totalProcessed result = length (before ++ contact :: after)
      ∧ (length (out_successfulRecords result) + length (out_errors result)
         = length (before ++ contact :: after))%nat
      ∧ length (submitted (trace env'))
        = (length (submitted (trace env)) + length (before ++ contact :: after))%nat.
Proof.
  intros Hfile Hparse Hbefore Htry.
  (* the row itself *)
  assert (Hrow : ∃ s_next, processContact contact s_i = (Ret tt, s_next)
     ∧ errors s_next.1 = (errors s_i.1 ++ [mkErrorEntry contact (message e)])).
  { destruct s_i as [arr_i env_i].
    destruct (resolveAccount_returns (mapContactFields contact) env_i)
      as (resolved & env1 & Hres & _).
    rewrite (processContact_run _ _ _ _ _ Hres).
    rewrite (tryContact_run _ _ _ _ _ Hres) in Htry. cbn zeta in *.
    destruct (conn_create "Contact" resolved (sf env1)).1 as [result|e'].
    - destruct (success result); [done|].
      destruct (res_errors result); [done|].
      injection Htry as <- _. by eexists.
    - injection Htry as <- _. by eexists. }
  split; [exact Hrow|].
  destruct Hrow as (s_next & Hnext & Herr).
  (* the whole file *)
  destruct (import_parsed _ _ _ _ Hfile Hparse)
    as (arr & env1 & Hloop & (_ & _ & calls & Htrace & _ & Hn) & Hlen & ->).
  eexists _, _. split; [done|]. cbn [out_errors out_successfulRecords totalProcessed].
  split_and!; [|done|done|].
  - rewrite forOf_app, Hbefore in Hloop. cbn [forOf] in Hloop.
    rewrite bind_run, Hnext in Hloop. destruct s_next as [arr_n env_n].
    destruct (forOf_processContact_returns after arr_n env_n)
      as (arr' & env'' & Hafter & _ & _ & Hprefix).
    rewrite Hafter in Hloop. injection Hloop as <- _.
    cbn in Herr. rewrite Herr in Hprefix.
    eapply elem_of_prefix; [|exact Hprefix]. set_solver.
  - cbn. cbn in Htrace. rewrite Htrace, !submitted_app, !length_app.
    rewrite length_app in Hn. cbn in *. lia.
Qed.

(** Whatever the CRM answers, the row's record is submitted once. *)
Lemma processContact_submits contact arr (env : Env World) resolved env1 :
  resolveAccount (mapContactFields contact) env = (Ret resolved, env1) →
  (processContact contact (arr, env)).2.2
  = with_sf (conn_create "Contact" resolved (sf env1)).2
            (log (EvCreate "Contact" resolved) env1).
Proof.
  intros Hres. rewrite (processContact_run _ _ _ _ _ Hres). cbn zeta.
  destruct (conn_create "Contact" resolved (sf env1)).1 as [result|e]; [|done].
  destruct (success result); [done|]. by destruct (res_errors result).
Qed.

Lemma mapContactFields_AccountName (contact : Obj) accountName :
  contact !! "AccountName" = Some accountName → accountName ≠ "" →
  mapContactFields contact !! "AccountName" = Some accountName.
Proof.
  intros Hname Hne. rewrite mapContactFields_lookup, Hname. cbn.
  by destruct (String.eqb_spec accountName "").
Qed.

Lemma mapContactFields_AccountId (contact : Obj) :
  mapContactFields contact !! "AccountId" = None.
Proof. by rewrite mapContactFields_lookup. Qed.

Lemma resolved_AccountId accountId (contactRecord : Obj) :
  delete "AccountName" (attachAccountId accountId contactRecord) !! "AccountId"
  = if truthy accountId then accountId else contactRecord !! "AccountId".
Proof.
  rewrite lookup_delete_ne by done. unfold attachAccountId.
  destruct accountId as [v|]; [|done].
  destruct (truthy (Some v)); [apply lookup_insert_eq|done].
Qed.

(** C4 — for a row that carries an [AccountName]: the contact record that is
    submitted never has the [AccountName] key; its [AccountId] is the [Id] of
    the first record of the exact-name query when there is one, the [id] of
    the account just created when the query found none and the creation
    succeeded, and is absent when the query or the creation throws or the
    creation reports failure; and in each case the row's own contact
    creation call is made.  Record identifiers are non-empty strings. *)
Theorem importContact_account_link contact accountName arr (env : Env World) :
  contact !! "AccountName" = Some accountName → accountName ≠ "" →
  let found := (conn_query (accountQuery accountName) (sf env)).1 in
  let made :=
    (conn_create "Account" {[ "Name" := accountName ]}
       (conn_query (accountQuery accountName) (sf env)).2).1 in
  ∃ submittedRecord,
    submitted (trace (processContact contact (arr, env)).2.2)
    = submitted (trace env) ++ [submittedRecord]
    ∧ submittedRecord !! "AccountName" = None
    ∧ (∀ result first rest Id,
         found = Resolve result → records result = Some (first :: rest) →
         prop_Id first = Some Id → Id ≠ "" →
         submittedRecord !! "AccountId" = Some Id)
    ∧ (∀ result createResult Id,
         found = Resolve result → records result = None ∨ records result = Some [] →
         made = Resolve createResult → success createResult = true →
         res_id createResult = Some Id → Id ≠ "" →
         submittedRecord !! "AccountId" = Some Id)
    ∧ ((∃ e, found = Reject e)
       ∨ (∃ result, found = Resolve result
            ∧ (records result = None ∨ records result = Some [])
            ∧ ((∃ e, made = Reject e)
               ∨ ∃ createResult, made = Resolve createResult
                                 ∧ success createResult = false)) →
       submittedRecord !! "AccountId" = None).
Proof.
  intros Hname Hne. cbn zeta.
  pose proof (mapContactFields_AccountName _ _ Hname Hne) as Hmapped.
  assert (Htruthy : truthy (Some accountName) = true).
  { apply truthy_Some. by exists accountName. }
  destruct (findOrCreateAccount_returns accountName env)
    as (accountId & env1 & Hfind & _ & _ & calls & Htrace & _ & Hnone).
  assert (Hres : resolveAccount (mapContactFields contact) env
    = (Ret (delete "AccountName"
              (attachAccountId accountId (mapContactFields contact))), env1)).
  { by rewrite resolveAccount_run, Hmapped, Htruthy, Hfind. }
  eexists. split_and!.
  - rewrite (processContact_submits _ _ _ _ _ Hres). cbn.
    rewrite Htrace, !submitted_app.
    apply nil_length_inv in Hnone. rewrite Hnone. cbn. by rewrite app_nil_r.
  - apply lookup_delete_eq.
  - intros result first rest Id Hfound Hrecords HId HIdne.
    rewrite findOrCreateAccount_run in Hfind. cbn zeta in Hfind.
    rewrite Hfound, Hrecords in Hfind. injection Hfind as <- _.
    rewrite resolved_AccountId, HId.
    assert (truthy (Some Id) = true) as ->; [|done].
    apply truthy_Some. by exists Id.
  - intros result createResult Id Hfound Hrecords Hmade Hsuccess HId HIdne.
    rewrite findOrCreateAccount_run in Hfind. cbn zeta in Hfind.
    rewrite Hfound in Hfind. cbn [sf with_sf] in Hfind. rewrite Hmade, Hsuccess in Hfind.
    assert (accountId = Some Id) as ->.
    { destruct Hrecords as [Hr|Hr]; rewrite Hr in Hfind; injection Hfind as <- _; done. }
    rewrite resolved_AccountId.
    assert (truthy (Some Id) = true) as ->; [|done].
    apply truthy_Some. by exists Id.
  - intros Hfailed.
    rewrite findOrCreateAccount_run in Hfind. cbn zeta in Hfind. cbn [sf with_sf] in Hfind.
    assert (accountId = None) as ->.
    { destruct Hfailed as [[e Hfound] | (result & Hfound & Hrecords & Hmade)];
        rewrite Hfound in Hfind; [by injection Hfind as <- _|].
      destruct Hmade as [[e Hmade] | (createResult & Hmade & Hsuccess)];
        rewrite Hmade, ?Hsuccess in Hfind;
        destruct Hrecords as [Hr|Hr]; rewrite Hr in Hfind; by injection Hfind as <- _. }
    rewrite resolved_AccountId. cbn. apply mapContactFields_AccountId.
Qed.


End Importer.

(** *** The pipeline on the scripted CRM *)

Import Script.

Lemma importContactsFromCSV_counts_witness :
  ∃ result env',
    importContactsFromCSV "/tmp/upload-1" env0 = (Ret result, env')
    ∧ totalProcessed result = 5%nat
    ∧ totalProcessed result = (successful result + failed result)%nat
    ∧ successful result = length (out_successfulRecords result)
    ∧ failed result = length (out_errors result).
Proof.
  run_as Hrun (importContactsFromCSV "/tmp/upload-1" env0).
  eexists _, _. split; [exact Hrun|]. split; [reflexivity|].
  exact (importContactsFromCSV_counts _ _ _ _ Hrun).
Defined.


Lemma importContactsFromCSV_row_isolation_witness :
  ∃ result env',
    importContactsFromCSV "/tmp/upload-1" env0 = (Ret result, env')
    ∧ mkErrorEntry bob "ECONNRESET" ∈ out_errors result
    ∧ totalProcessed result = 5%nat
    ∧ length (submitted (trace env')) = 5%nat.
Proof.
  run_as Hbefore (forOf [ann] processContact (fresh, log (EvRead "/tmp/upload-1") env0)).
  match type of Hbefore with
  | _ = (_, ?s_i) => run_as Htry (tryContact bob s_i)
  end.
  match type of Htry with
  | tryContact _ ?s_i = (Throw ?e, ?s_thrown) =>
      destruct (importContactsFromCSV_row_isolation
                  "/tmp/upload-1" env0 "contacts" [ann] bob [cat; dan; eve] s_i s_thrown e)
        as (_ & result & env' & Hrun & Hin & Htotal & _ & Hcalls);
        [reflexivity|reflexivity|exact Hbefore|exact Htry|]
  end.
  exists result, env'. split_and!; [exact Hrun|exact Hin|exact Htotal|exact Hcalls].
Defined.

Lemma importContact_account_link_witness :
  (∃ r, submitted (trace (processContact ann (fresh, env0)).2.2) = [r]
        ∧ r !! "AccountName" = None ∧ r !! "AccountId" = Some "001A")
  ∧ (∃ r, submitted (trace (processContact dan (fresh, env0)).2.2) = [r]
          ∧ r !! "AccountName" = None ∧ r !! "AccountId" = Some "001A")
  ∧ (∃ r, submitted (trace (processContact fay (fresh, env0)).2.2) = [r]
          ∧ r !! "AccountName" = None ∧ r !! "AccountId" = None)
  ∧ (∃ r, submitted (trace (processContact gus (fresh, env0)).2.2) = [r]
          ∧ r !! "AccountName" = None ∧ r !! "AccountId" = None).
Proof.
  split_and!.
  - destruct (importContact_account_link ann "Acme" fresh env0)
      as (r & Hsub & Hname & Hfound & _);
      [vm_compute; reflexivity|discriminate|].
    exists r. split_and!; [exact Hsub|exact Hname|].
    apply (Hfound (mkQueryResult (Some [acme])) acme [] "001A");
      [vm_compute; reflexivity..|discriminate].
  - destruct (importContact_account_link dan "Initech" fresh env0)
      as (r & Hsub & Hname & _ & Hmade & _);
      [vm_compute; reflexivity|discriminate|].
    exists r. split_and!; [exact Hsub|exact Hname|].
    apply (Hmade (mkQueryResult (Some []))
                 (mkCreateResult (Some "001A") true (Some [])) "001A");
      [vm_compute; reflexivity|by right|vm_compute; reflexivity..|discriminate].
  - destruct (importContact_account_link fay "Down" fresh env0)
      as (r & Hsub & Hname & _ & _ & Hfailed);
      [vm_compute; reflexivity|discriminate|].
    exists r. split_and!; [exact Hsub|exact Hname|].
    apply Hfailed. left. exists (mkError "INVALID_SESSION_ID").
    vm_compute; reflexivity.
  - destruct (importContact_account_link gus "Closed" fresh env0)
      as (r & Hsub & Hname & _ & _ & Hfailed);
      [vm_compute; reflexivity|discriminate|].
    exists r. split_and!; [exact Hsub|exact Hname|].
    apply Hfailed. right. exists (mkQueryResult (Some [])).
    split_and!; [vm_compute; reflexivity|by right|].
    right. exists (mkCreateResult None false (Some ["INSUFFICIENT_ACCESS"])).
    split; vm_compute; reflexivity.
Defined.



End ImportFacts.

(** ** The report pipeline *)

Module ReportFacts.
Import SalesforceService CsvReport ServiceFacts.
Section Report.
Context {World : Type} `{!Connection World} `{!CsvLib} `{!Node}.

(** [generateCsvReport], unfolded by the answer of the CRM. *)
Lemma generateCsvReport_run soql reportName dir (env : Env World) :
  let env1 := with_sf (conn_query soql (sf env)).2 (log (EvQuery soql) env) in
  generateCsvReport soql reportName dir env
  = match (conn_query soql (sf env)).1 with
    | Reject e => (Throw e, env1)
    | Resolve queryResult =>
        match records queryResult with
        | None | Some [] =>
            (Ret (ReportFailure "No records found for the specified query" soql), env1)
        | Some ((first :: _) as recs) =>
            let filename :=
              sanitize reportName +:+ "_" +:+ dash_colons_dots (clock env) +:+ ".csv" in
            let fields := filter (λ field, field ≠ "attributes") (Object_keys first) in
            let csvData :=
              (λ record : SObject, (λ field, (field, prop field record)) <$> fields)
                <$> recs in
            let filePath := path_join dir filename in
            let text := csv_format fields csvData in
            match stream_error filePath text (files env) with
            | None =>
                (Ret (ReportSuccess filename filePath (length recs) fields soql),
                 with_files (<[filePath := text]> (files env)) (log (EvWrite filePath) env1))
            | Some (error, remains) =>
                (Throw error, with_files remains (log (EvWrite filePath) env1))
            end
        end
    end.
Proof.
  cbn zeta. unfold generateCsvReport. rewrite try_rethrow_run, bind_run, querySalesforce_run.
  destruct (conn_query soql (sf env)) as [[queryResult|e] w]; cbn [fst snd await]; [|done].
  destruct (records queryResult) as [[|first rest]|]; [done| |done].
  rewrite bind_run. unfold toISOString_now. cbn [fst snd].
  rewrite bind_run. unfold writeCsvFile. cbn [files with_sf log].
  by destruct (stream_error _ _ _) as [[error remains]|].
Qed.

(** C6 — when the query answers with no [records] key or with an empty
    [records] array, [generateCsvReport] returns the failure object (so
    [success] is false) with its reason, the disk is what it was, and the
    only external call made is the query: nothing is written. *)
Theorem generateCsvReport_no_records soql reportName dir (env : Env World) queryResult :
  (conn_query soql (sf env)).1 = Resolve queryResult →
  records queryResult = None ∨ records queryResult = Some [] →
  ∃ report env',
    generateCsvReport soql reportName dir env = (Ret report, env')
    ∧ report = ReportFailure "No records found for the specified query" soql
    ∧ report_success report = false
    ∧ files env' = files env
    ∧ trace env' = trace env ++ [EvQuery soql].
Proof.
  intros Hquery Hnone. rewrite generateCsvReport_run, Hquery. cbn zeta.
  destruct Hnone as [-> | ->]; by eexists _, _.
Qed.

(** C9 — when the query returns at least one record, the [fields] of the
    report that [generateCsvReport] returns are the keys of the first record
    without ['attributes'], in the order the first record has them.  The
    report is returned whenever the file can be written: in a directory
    where write streams finish, the call returns a report; where the write
    stream fails, the call throws and returns none. *)
Theorem generateCsvReport_fields soql reportName dir (env : Env World)
    queryResult first rest :
  (conn_query soql (sf env)).1 = Resolve queryResult →
  records queryResult = Some (first :: rest) →
  ∃ fields,
    fields = filter (λ key, key ≠ "attributes") (Object_keys first)
    ∧ fields `sublist_of` Object_keys first
    ∧ (∀ key, key ∈ fields ↔ key ∈ Object_keys first ∧ key ≠ "attributes")
    ∧ (∀ report env',
         generateCsvReport soql reportName dir env = (Ret report, env') →
         report_success report = true ∧ report_fields report = Some fields)
    ∧ ((∀ filename text, stream_error (path_join dir filename) text (files env) = None) →
       ∃ report env', generateCsvReport soql reportName dir env = (Ret report, env')).
Proof.
  intros Hquery Hrecords. rewrite generateCsvReport_run, Hquery, Hrecords. cbn zeta.
  eexists. split; [reflexivity|]. split_and!.
  - apply sublist_filter.
  - intros key. rewrite list_elem_of_filter. tauto.
  - intros report env'. destruct (stream_error _ _ _) as [[error remains]|]; [done|].
    by intros [= <- _].
  - intros Hwritable. rewrite Hwritable. by eexists _, _.
Qed.

End Report.

Import Script.

Lemma generateCsvReport_no_records_witness :
  (∃ env', generateCsvReport "SELECT Id FROM Lead" "Leads" "/tmp" env0
           = (Ret (ReportFailure "No records found for the specified query"
                     "SELECT Id FROM Lead"), env')
           ∧ files env' = disk)
  ∧ (∃ env', generateCsvReport "SELECT Id FROM Case" "Cases" "/tmp" env0
             = (Ret (ReportFailure "No records found for the specified query"
                       "SELECT Id FROM Case"), env')
             ∧ files env' = disk).
Proof.
  split.
  - destruct (generateCsvReport_no_records "SELECT Id FROM Lead" "Leads" "/tmp" env0
                (mkQueryResult None))
      as (report & env' & Hrun & -> & _ & Hfiles & _);
      [vm_compute; reflexivity|by left|].
    by exists env'.
  - destruct (generateCsvReport_no_records "SELECT Id FROM Case" "Cases" "/tmp" env0
                (mkQueryResult (Some [])))
      as (report & env' & Hrun & -> & _ & Hfiles & _);
      [vm_compute; reflexivity|by right|].
    by exists env'.
Defined.

Lemma generateCsvReport_fields_witness :
  ∃ report env',
    generateCsvReport "SELECT Id, LastName, Email FROM Contact" "My report!" "/tmp" env0
    = (Ret report, env')
    ∧ report_fields report = Some ["Id"; "LastName"; "Email"].
Proof.
  destruct (generateCsvReport_fields
              "SELECT Id, LastName, Email FROM Contact" "My report!" "/tmp" env0
              (mkQueryResult (Some contactRows))
              [ ("attributes", VObject [("type", "Contact")]); ("Id", VStr "003A");
                ("LastName", VStr "Doe"); ("Email", VNull) ]
              [ [ ("attributes", VObject [("type", "Contact")]); ("Id", VStr "003B");
                  ("LastName", VStr "Roe"); ("Email", VStr "roe@example.com") ] ])
    as (fields & -> & _ & _ & Hfields & Hreturns);
    [vm_compute; reflexivity|reflexivity|].
  destruct Hreturns as (report & env' & Hrun); [intros filename text; vm_compute; reflexivity|].
  exists report, env'. split; [exact Hrun|].
  by destruct (Hfields report env' Hrun) as [_ ->].
Defined.

End ReportFacts.

(** ** More on the rate limiter and the authentication chain *)

Module AuthExtra.
Import Auth Middleware AuthFacts.

Lemma read_slot_Own (rc : gmap string Entry) key e :
  read_slot rc key = Own e → rc !! key = Some e.
Proof.
  unfold read_slot. destruct (rc !! key) as [e'|]; [congruence|].
  by destruct (bool_decide _).
Qed.

Lemma serve_cons req now rest (rc : gmap string Entry) :
  serve ((req, now) :: rest) rc
  = ((rateLimiter req now rc).1 :: (serve rest (rateLimiter req now rc).2).1,
     (serve rest (rateLimiter req now rc).2).2).
Proof.
  simpl. destruct (rateLimiter req now rc) as [r rc1]. simpl.
  by destruct (serve rest rc1).
Qed.

Lemma passes_cons r rs :
  passes (r :: rs) = ((if is_next r then 1 else 0) + passes rs)%nat.
Proof.
  unfold passes. rewrite filter_cons.
  destruct r; cbn; case_decide; done.
Qed.

(** X1 — callers do not interfere: a run of requests leaves the entry of
    every caller who sent none of them exactly as it was. *)
Theorem serve_isolation (reqs : list (Request * Z)) (rc : gmap string Entry) key :
  Forall (λ r, caller_key r.1 ≠ key) reqs →
  (serve reqs rc).2 !! key = rc !! key.
Proof.
  revert rc. induction reqs as [|[req now] reqs IH]; intros rc Hother; [done|].
  apply Forall_cons in Hother as [Hreq Hrest]. cbn in Hreq.
  rewrite serve_cons. cbn [snd]. rewrite IH by done.
  by apply rateLimiter_other_key.
Qed.

Lemma serve_isolation_witness :
  (serve [ (mkRequest (Some "key-a") "10.0.0.1", 1000);
           (mkRequest None "10.0.0.2", 1500);
           (mkRequest (Some "key-a") "10.0.0.3", 2000) ]
         {[ "key-b" := mkEntry 5 30000 ]}).2 !! "key-b"
  = Some (mkEntry 5 30000).
Proof.
  rewrite serve_isolation; [reflexivity|].
  repeat (constructor; [cbn; discriminate|]). constructor.
Defined.

(** X2 — a refused request changes nothing: when the answer is 429 the table
    is left as it was (the request is not counted and the window is not
    moved), the caller's entry is at the limit inside its window, and
    [retryAfter] is the time left to the end of that window in whole
    seconds, never negative. *)
Theorem rateLimiter_refusal req now (rc rc' : gmap string Entry) retryAfter :
  rateLimiter req now rc = (Status429 retryAfter, rc') →
  rc' = rc
  ∧ 0 ≤ retryAfter
  ∧ ∃ e, rc !! caller_key req = Some e
         ∧ RATE_LIMIT_MAX_REQUESTS ≤ count e
         ∧ now ≤ resetTime e
         ∧ retryAfter = ceil_div (resetTime e - now) 1000.
Proof.
  unfold rateLimiter.
  destruct (read_slot rc (caller_key req)) as [e| |] eqn:Hslot; [|done..].
  apply read_slot_Own in Hslot.
  destruct (Z.ltb_spec (resetTime e) now) as [Hold|Hin]; [done|].
  destruct (Z.leb_spec RATE_LIMIT_MAX_REQUESTS (count e)) as [Hfull|Hroom]; [|done].
  intros [= <- <-]. split_and!.
  - by apply insert_id.
  - unfold ceil_div.
    assert (Z.div (- (resetTime e - now)) 1000 ≤ 0); [|lia].
    apply Z.div_le_upper_bound; lia.
  - by exists e.
Qed.

Lemma rateLimiter_refusal_witness :
  ∃ rc', rateLimiter (mkRequest (Some "key-b") "10.0.0.2") 29001
           {[ "key-b" := mkEntry 5 30000 ]} = (Status429 1, rc')
         ∧ rc' = {[ "key-b" := mkEntry 5 30000 ]}.
Proof.
  eexists. split; [reflexivity|].
  by apply (rateLimiter_refusal (mkRequest (Some "key-b") "10.0.0.2") 29001 _ _ 1).
Defined.

Lemma rateLimiter_keeps_range req now (rc : gmap string Entry) :
  counts_in_range rc →
  counts_in_range (rateLimiter req now rc).2
  ∧ remaining_in_range (rateLimiter req now rc).1.
Proof.
  intros Hinv. unfold rateLimiter.
  assert (Hnew : counts_in_range
            (<[caller_key req := mkEntry (0 + 1) (now + RATE_LIMIT_WINDOW_MS)]> rc)
          ∧ 0 ≤ RATE_LIMIT_MAX_REQUESTS - (0 + 1) < RATE_LIMIT_MAX_REQUESTS).
  { split; [|by vm_compute]. apply map_Forall_insert_2; [by vm_compute|done]. }
  destruct (read_slot rc (caller_key req)) as [e| |] eqn:Hslot; cbn; [|done|done].
  apply read_slot_Own in Hslot. pose proof (Hinv _ _ Hslot) as He. cbn in He.
  destruct (Z.ltb_spec (resetTime e) now) as [Hold|Hin]; cbn; [done|].
  destruct (Z.leb_spec RATE_LIMIT_MAX_REQUESTS (count e)) as [Hfull|Hroom]; cbn.
  - split; [|done]. by apply map_Forall_insert_2.
  - split; [|lia]. apply map_Forall_insert_2; [cbn; lia|done].
Qed.

(** X3 — from an empty table, whatever requests arrive and whenever: every
    stored count stays between 1 and the limit, and every
    [X-RateLimit-Remaining] header that carries a number carries one between
    0 and the limit minus one. *)
Theorem serve_counts_in_range (reqs : list (Request * Z)) :
  Forall remaining_in_range (serve reqs ∅).1
  ∧ counts_in_range (serve reqs ∅).2.
Proof.
  assert (Hgen : ∀ rc : gmap string Entry, counts_in_range rc →
            Forall remaining_in_range (serve reqs rc).1
            ∧ counts_in_range (serve reqs rc).2).
  { induction reqs as [|[req now] reqs IH]; intros rc Hinv; [by split|].
    rewrite serve_cons. cbn [fst snd].
    destruct (rateLimiter_keeps_range req now rc Hinv) as [Hinv' Hr].
    destruct (IH _ Hinv') as [Hrs Hfinal]. split; [by constructor|done]. }
  apply Hgen. apply map_Forall_empty.
Qed.

(** X4 — the window is fixed: a request that arrives before the reset time
    of its caller's entry leaves that reset time where it was, and raises the
    count by one or, at the limit, not at all. *)
Theorem rateLimiter_fixed_window req now (rc : gmap string Entry) e :
  rc !! caller_key req = Some e →
  now ≤ resetTime e →
  ∃ e', (rateLimiter req now rc).2 !! caller_key req = Some e'
        ∧ resetTime e' = resetTime e
        ∧ count e' = (if RATE_LIMIT_MAX_REQUESTS <=? count e then count e else count e + 1).
Proof.
  intros Hsome Hin.
  destruct (Z.leb_spec RATE_LIMIT_MAX_REQUESTS (count e)) as [Hfull|Hroom].
  - rewrite (rateLimiter_refuses _ _ _ _ Hsome Hin Hfull). by exists e.
  - rewrite (rateLimiter_counts _ _ _ _ Hsome Hin Hroom). cbn [snd].
    eexists. split; [apply lookup_insert_eq|done].
Qed.

Lemma rateLimiter_fixed_window_witness :
  ∃ e', (rateLimiter (mkRequest (Some "key-c") "10.0.0.2") 29999
           {[ "key-c" := mkEntry 2 30000 ]}).2 !! "key-c" = Some e'
        ∧ resetTime e' = 30000 ∧ count e' = 3.
Proof.
  destruct (rateLimiter_fixed_window (mkRequest (Some "key-c") "10.0.0.2") 29999
              {[ "key-c" := mkEntry 2 30000 ]} (mkEntry 2 30000))
    as (e' & Hlookup & Hreset & Hcount); [reflexivity|cbn; lia|].
  exists e'. by split_and!.
Defined.

Lemma serve_inside_window req (times : list Z) (rc : gmap string Entry) e :
  rc !! caller_key req = Some e →
  0 ≤ count e ≤ RATE_LIMIT_MAX_REQUESTS →
  Forall (λ t, t ≤ resetTime e) times →
  passes (serve ((λ t, (req, t)) <$> times) rc).1
  = (length times `min` Z.to_nat (RATE_LIMIT_MAX_REQUESTS - count e))%nat.
Proof.
  revert rc e. induction times as [|t times IH]; intros rc e Hsome Hcount Hin; [done|].
  apply Forall_cons in Hin as [Ht Hin].
  cbn [fmap list_fmap]. change (list_fmap _ _ ?f times) with (f <$> times).
  rewrite serve_cons. cbn [fst]. rewrite passes_cons.
  destruct (Z.leb_spec RATE_LIMIT_MAX_REQUESTS (count e)) as [Hfull|Hroom].
  - rewrite (rateLimiter_refuses _ _ _ _ Hsome Ht Hfull). cbn [fst snd is_next].
    rewrite (IH _ _ Hsome Hcount Hin). cbn [length]. lia.
  - rewrite (rateLimiter_counts _ _ _ _ Hsome Ht Hroom). cbn [fst snd is_next].
    erewrite IH; [|apply lookup_insert_eq|cbn; lia|done].
    cbn [length count]. lia.
Qed.

(** X5 — the limit holds for runs of any length: of the requests a caller
    (whose key is not a name found on the prototype) sends from the one that
    opens a window up to the reset time of that window, exactly the first
    five pass, however many are sent. *)
Theorem serve_passes_at_most_max req t1 (times : list Z) (rc : gmap string Entry) :
  caller_key req ∉ Object_prototype_keys →
  (rc !! caller_key req = None
   ∨ ∃ e, rc !! caller_key req = Some e ∧ resetTime e < t1) →
  Forall (λ t, t ≤ t1 + RATE_LIMIT_WINDOW_MS) times →
  passes (serve ((λ t, (req, t)) <$> t1 :: times) rc).1
  = (S (length times) `min` 5)%nat.
Proof.
  intros Hout Hslot Hin.
  cbn [fmap list_fmap]. change (list_fmap _ _ ?f times) with (f <$> times).
  rewrite serve_cons. cbn [fst]. rewrite passes_cons.
  rewrite rateLimiter_opens_window by done. cbn [fst snd is_next].
  erewrite serve_inside_window; [|apply lookup_insert_eq|by vm_compute|done].
  cbn [count]. change (Z.to_nat (RATE_LIMIT_MAX_REQUESTS - 1)) with 4%nat. lia.
Qed.

Lemma serve_passes_at_most_max_witness :
  passes (serve ((λ t, (mkRequest (Some "sk-ant-1") "10.0.0.7", t))
                   <$> [1000; 500; 2000; 2000; 40000; 61000; 700; 61000; 3000]) ∅).1
  = 5%nat.
Proof.
  rewrite (serve_passes_at_most_max (mkRequest (Some "sk-ant-1") "10.0.0.7") 1000).
  - reflexivity.
  - vm_compute. intros H. repeat (apply elem_of_cons in H as [H|H]; [discriminate|]).
    by apply elem_of_nil in H.
  - by left.
  - repeat (constructor; [unfold RATE_LIMIT_WINDOW_MS; lia|]). constructor.
Defined.

(** X6 — on the guarded routes the quota belongs to the API key.  A request
    without a key (absent or empty header) is answered 401 and leaves the
    table untouched, whatever its address; two requests with the same
    non-empty key are treated alike, whatever their addresses. *)
Theorem guard_quota_is_per_key req now (rc : gmap string Entry) :
  (x_api_key req = None ∨ x_api_key req = Some "" →
   guard req now rc = (Denied401 AUTHENTICATION_REQUIRED, rc))
  ∧ (∀ req' apiKey, x_api_key req = Some apiKey → apiKey ≠ "" →
     x_api_key req' = Some apiKey →
     guard req now rc = guard req' now rc
     ∧ ∀ key, key ≠ apiKey → (guard req now rc).2 !! key = rc !! key).
Proof.
  split.
  - unfold guard, authenticateAnthropicKey. by intros [-> | ->].
  - intros req' apiKey Hkey Hne Hkey'.
    assert (Hcaller : ∀ r, x_api_key r = Some apiKey → caller_key r = apiKey).
    { intros r Hr. unfold caller_key. rewrite Hr. cbn.
      by destruct (String.eqb_spec apiKey ""). }
    assert (Hsame : ∀ r, x_api_key r = Some apiKey →
              rateLimiter r now rc
              = rateLimiter (mkRequest (Some apiKey) "") now rc).
    { intros r Hr. unfold rateLimiter. by rewrite (Hcaller r Hr), (Hcaller (mkRequest (Some apiKey) "") eq_refl). }
    split.
    + unfold guard, authenticateAnthropicKey. rewrite Hkey, Hkey'.
      by rewrite (Hsame req Hkey), (Hsame req' Hkey').
    + intros key Hother.
      assert ((guard req now rc).2 = (rateLimiter req now rc).2) as ->.
      { unfold guard, authenticateAnthropicKey. rewrite Hkey.
        assert (truthy (Some apiKey) = true) as ->.
        { cbn. by destruct (String.eqb_spec apiKey ""). }
        by destruct (rateLimiter req now rc) as [[] ?]. }
      apply rateLimiter_other_key. by rewrite (Hcaller req Hkey).
Qed.

Lemma guard_quota_is_per_key_witness :
  guard (mkRequest (Some "") "10.0.0.9") 1000 {[ "10.0.0.9" := mkEntry 5 30000 ]}
  = (Denied401 AUTHENTICATION_REQUIRED, {[ "10.0.0.9" := mkEntry 5 30000 ]})
  ∧ guard (mkRequest (Some "sk-ant-1") "10.0.0.1") 1000 {[ "sk-ant-1" := mkEntry 5 30000 ]}
    = guard (mkRequest (Some "sk-ant-1") "10.0.0.2") 1000 {[ "sk-ant-1" := mkEntry 5 30000 ]}.
Proof.
  split.
  - apply (proj1 (guard_quota_is_per_key (mkRequest (Some "") "10.0.0.9") 1000 _)).
    by right.
  - apply (proj2 (guard_quota_is_per_key (mkRequest (Some "sk-ant-1") "10.0.0.1") 1000 _)
             (mkRequest (Some "sk-ant-1") "10.0.0.2") "sk-ant-1"); [done|discriminate|done].
Defined.

End AuthExtra.

(** ** More on the field mapping *)

Module MapExtra.
Import CsvImport MapFacts.

Lemma or_default_nonempty (v : option string) d : d ≠ "" → or_default v d ≠ "".
Proof.
  intros Hd. destruct v as [s|]; cbn; [|done].
  by destruct (String.eqb_spec s "").
Qed.

(** X7 — the candidate record always has a [LastName], and it is never the
    empty string, whatever the row holds. *)
Theorem mapContactFields_LastName_required (csvContact : Obj) :
  ∃ v, mapContactFields csvContact !! "LastName" = Some v ∧ v ≠ "".
Proof.
  rewrite mapContactFields_lookup. cbn. eexists. split; [done|].
  by apply or_default_nonempty.
Qed.

(** X8 — nothing is invented or moved: every value of the candidate record
    is the value the row has under the same key, the one exception being the
    placeholder ["Unknown"] under [LastName]. *)
Theorem mapContactFields_values_from_row (csvContact : Obj) key v :
  mapContactFields csvContact !! key = Some v →
  csvContact !! key = Some v ∨ (key = "LastName" ∧ v = "Unknown").
Proof.
  rewrite mapContactFields_lookup.
  destruct (endsWith key "__c"); [by left|].
  case_bool_decide as HL.
  - subst key. intros [= <-]. destruct (csvContact !! "LastName") as [s|]; cbn; [|by right].
    destruct (String.eqb_spec s ""); [by right|by left].
  - destruct (_ && _); [by left|done].
Qed.

Lemma mapContactFields_values_from_row_witness :
  (Script.dan !! "FirstName" = Some "Dan"
   ∨ ("FirstName" = "LastName" ∧ "Dan" = "Unknown"))
  ∧ (Script.cat !! "LastName" = Some "Unknown"
     ∨ ("LastName" = "LastName" ∧ "Unknown" = "Unknown")).
Proof.
  split.
  - apply (mapContactFields_values_from_row Script.dan "FirstName" "Dan"). reflexivity.
  - apply (mapContactFields_values_from_row Script.cat "LastName" "Unknown"). reflexivity.
Defined.

(** X9 — a standard field, a mailing field or [AccountName] with a non-empty
    value is always carried over, each on its own: a mailing field does not
    depend on the other mailing fields, nor any field on another. *)
Theorem mapContactFields_keeps_nonempty (csvContact : Obj) field v :
  field ∈ standardFields ++ mailingFields ++ ["AccountName"] →
  csvContact !! field = Some v → v ≠ "" →
  mapContactFields csvContact !! field = Some v.
Proof.
  intros Hin Hv Hne. rewrite mapContactFields_lookup.
  assert (endsWith field "__c" = false) as ->.
  { destruct (endsWith field "__c") eqn:Hc; [|done].
    by apply custom_key_not_fixed in Hc as [_ []]. }
  rewrite (bool_decide_eq_false_2 (field = "LastName"))
    by (intros ->; by apply LastName_not_optional).
  rewrite (bool_decide_eq_true_2 (field ∈ optionalFields)) by done.
  rewrite Hv. cbn. by destruct (String.eqb_spec v "").
Qed.

Lemma mapContactFields_keeps_nonempty_witness :
  mapContactFields (Script.row [("MailingCity", "Oslo"); ("MailingStreet", "")])
    !! "MailingCity" = Some "Oslo".
Proof.
  apply mapContactFields_keeps_nonempty; [|reflexivity|discriminate].
  unfold standardFields, mailingFields. set_solver.
Defined.

(** X10 — mapping is idempotent: a candidate record, mapped again as if it
    were a row, comes out unchanged. *)
Theorem mapContactFields_idempotent (csvContact : Obj) :
  mapContactFields (mapContactFields csvContact) = mapContactFields csvContact.
Proof.
  apply map_eq. intros key.
  rewrite (mapContactFields_lookup (mapContactFields csvContact)).
  rewrite !(mapContactFields_lookup csvContact).
  destruct (endsWith key "__c") eqn:Hc; [done|].
  rewrite (bool_decide_eq_true_2 ("LastName" = "LastName")) by done.
  change (endsWith "LastName" "__c") with false. cbn match.
  destruct (decide (key = "LastName")) as [->|HL].
  - rewrite (bool_decide_eq_true_2 ("LastName" = "LastName")) by done.
    f_equal. cbn.
    pose proof (or_default_nonempty (csvContact !! "LastName") "Unknown") as Hne.
    destruct (String.eqb_spec (or_default (csvContact !! "LastName") "Unknown") "");
      [|done].
    by destruct Hne.
  - rewrite !(bool_decide_eq_false_2 (key = "LastName")) by done.
    destruct (bool_decide (key ∈ optionalFields)); cbn [andb]; [|done].
    destruct (truthy (csvContact !! key)) eqn:Ht; [by rewrite Ht|done].
Qed.

End MapExtra.

(** ** Strings *)

Module StringFacts.

Lemma append_cons a (s t : string) : String a s +:+ t = String a (s +:+ t).
Proof. reflexivity. Qed.

Lemma append_nil_l (s : string) : "" +:+ s = s.
Proof. reflexivity. Qed.

Lemma append_nil_r (s : string) : s +:+ "" = s.
Proof. induction s as [|a s IH]; [done|]. by rewrite append_cons, IH. Qed.

Lemma append_assoc (s1 s2 s3 : string) : (s1 +:+ s2) +:+ s3 = s1 +:+ (s2 +:+ s3).
Proof.
  induction s1 as [|a s1 IH]; [done|]. by rewrite !append_cons, IH.
Qed.

Lemma chars_cons a (s : string) : chars (String a s) = a :: chars s.
Proof. reflexivity. Qed.

Lemma chars_app (s1 s2 : string) : chars (s1 +:+ s2) = chars s1 ++ chars s2.
Proof.
  induction s1 as [|a s1 IH]; [done|].
  by rewrite append_cons, !chars_cons, IH.
Qed.

Lemma replace_each_chars (f : ascii → string) (s : string) :
  chars (replace_each f s) = chars s ≫= (λ a, chars (f a)).
Proof.
  induction s as [|a s IH]; [done|].
  cbn [replace_each]. rewrite chars_app, IH. done.
Qed.


Lemma snoc_nonempty (t : string) l : t +:+ String l "" ≠ "".
Proof. by destruct t. Qed.

Lemma continuation_ascii l : (Ascii.N_of_ascii l < 0x80)%N → continuation l = None.
Proof.
  intros H. unfold continuation, is_continuation.
  by destruct (N.leb_spec 0x80 (Ascii.N_of_ascii l)); [lia|].
Qed.

(** An ASCII character is its own byte. *)
Lemma codePoint_ascii a (s : string) :
  (Ascii.N_of_ascii a < 0x80)%N → codePoint (String a s) = Some (Ascii.N_of_ascii a, s).
Proof.
  intros H. cbn [codePoint]. cbn zeta.
  by destruct (N.ltb_spec (Ascii.N_of_ascii a) 0x80); [|lia].
Qed.

(** Every character takes at least one byte. *)
Lemma codePoint_shorter (s : string) cp rest :
  codePoint s = Some (cp, rest) → (String.length rest < String.length s)%nat.
Proof.
  unfold codePoint, at_least. cbn zeta. intros H.
  repeat first [case_match | progress simplify_option_eq]; cbn [String.length]; lia.
Qed.

(** The length of a text is enough fuel for [trimStart], which is thereby
    the function that drops white space for as long as there is some. *)
Lemma trimStart_upto_enough (n m : nat) (s : string) :
  (String.length s ≤ n)%nat → (String.length s ≤ m)%nat →
  trimStart_upto n s = trimStart_upto m s.
Proof.
  revert m s. induction n as [|n IH]; intros [|m] s Hn Hm.
  - done.
  - destruct s; [done|cbn in Hn; lia].
  - destruct s; [done|cbn in Hm; lia].
  - cbn [trimStart_upto]. destruct (codePoint s) as [[cp rest]|] eqn:Hcp; [|done].
    destruct (is_WhiteSpace cp); [|done].
    apply codePoint_shorter in Hcp. apply IH; lia.
Qed.

Lemma trimStart_unfold (s : string) :
  trimStart s
  = match codePoint s with
    | Some (cp, rest) => if is_WhiteSpace cp then trimStart rest else s
    | None => s
    end.
Proof.
  unfold trimStart at 1. destruct s as [|a s]; [done|].
  cbn [String.length trimStart_upto].
  destruct (codePoint (String a s)) as [[cp rest]|] eqn:Hcp; [|done].
  destruct (is_WhiteSpace cp); [|done].
  apply codePoint_shorter in Hcp. cbn [String.length] in Hcp.
  apply trimStart_upto_enough; lia.
Qed.

Lemma trimStart_blank (s : string) : trimStart (String " " s) = trimStart s.
Proof. by rewrite trimStart_unfold. Qed.

Lemma trimStart_clean a (s : string) :
  (Ascii.N_of_ascii a < 0x80)%N → is_WhiteSpace (Ascii.N_of_ascii a) = false →
  trimStart (String a s) = String a s.
Proof. intros Ha Hw. by rewrite trimStart_unfold, codePoint_ascii, Hw. Qed.

(** The characters before an ASCII character end before it. *)
Lemma codePoint_snoc (t : string) l cp rest :
  (Ascii.N_of_ascii l < 0x80)%N →
  codePoint (t +:+ String l "") = Some (cp, rest) →
  (t = "" ∧ cp = Ascii.N_of_ascii l ∧ rest = "") ∨ ∃ t', rest = t' +:+ String l "".
Proof.
  intros Hl. pose proof (continuation_ascii l Hl) as Hc.
  destruct t as [|a [|b [|c [|d t]]]]; rewrite ?append_cons, ?append_nil_l;
    unfold codePoint, at_least; cbn zeta; rewrite ?Hc; intros H;
    repeat first [case_match | progress simplify_option_eq];
    first [ by left
          | right; by eexists ""
          | right; by eexists (String _ "")
          | right; by eexists (String _ (String _ ""))
          | right; by eexists (String _ (String _ (String _ "")))
          | right; by eexists (String _ (String _ (String _ (String _ _))))
          | right; by eexists (String _ (String _ (String _ _)))
          | right; by eexists (String _ (String _ _))
          | right; by eexists (String _ _)
          | right; by eexists ].
Qed.

(** A text that ends with an ASCII character other than white space is not
    white space only. *)
Lemma trimStart_upto_snoc (n : nat) (t : string) l :
  (Ascii.N_of_ascii l < 0x80)%N → is_WhiteSpace (Ascii.N_of_ascii l) = false →
  trimStart_upto n (t +:+ String l "") ≠ "".
Proof.
  intros Hl Hw. revert t. induction n as [|n IH]; intros t; [apply snoc_nonempty|].
  cbn [trimStart_upto].
  destruct (codePoint (t +:+ String l "")) as [[cp rest]|] eqn:Hcp; [|apply snoc_nonempty].
  destruct (is_WhiteSpace cp) eqn:Hcpw; [|apply snoc_nonempty].
  destruct (codePoint_snoc _ _ _ _ Hl Hcp) as [(_ & -> & _) | [t' ->]]; [congruence|apply IH].
Qed.

Lemma trimEnd_clean (t : string) l :
  (Ascii.N_of_ascii l < 0x80)%N → is_WhiteSpace (Ascii.N_of_ascii l) = false →
  trimEnd (t +:+ String l "") = t +:+ String l "".
Proof.
  intros Hl Hw. induction t as [|a t IH].
  - rewrite append_nil_l. cbn [trimEnd]. by rewrite trimStart_clean.
  - rewrite append_cons. cbn [trimEnd]. rewrite IH.
    destruct (String.eqb_spec (trimStart (String a (t +:+ String l ""))) "") as [Hall|]; [|done].
    destruct (trimStart_upto_snoc _ (String a t) l Hl Hw Hall).
Qed.

(** [trim] only removes white space at the two ends: a text that begins and
    ends with ASCII characters other than white space is left alone. *)
Lemma trim_clean a (s : string) b :
  (Ascii.N_of_ascii a < 0x80)%N → is_WhiteSpace (Ascii.N_of_ascii a) = false →
  (Ascii.N_of_ascii b < 0x80)%N → is_WhiteSpace (Ascii.N_of_ascii b) = false →
  trim (String a (s +:+ String b "")) = String a (s +:+ String b "").
Proof.
  intros Ha Hwa Hb Hwb. unfold trim. rewrite trimStart_clean by done.
  rewrite <- append_cons. by apply trimEnd_clean.
Qed.

End StringFacts.

(** ** More on the import pipeline *)

Module ImportExtra.
Import SalesforceService CsvImport ServiceFacts MapFacts ImportFacts StringFacts.

(** X11 — when there is no first name the display name of an imported
    contact is its last name trimmed, without the blank that separates the
    two; when the first name begins and the last name ends with an ASCII
    character other than white space it is the first name, one blank, and
    the last name. *)
Theorem displayName_shape (contactRecord : Obj) lastName :
  contactRecord !! "LastName" = Some lastName →
  (contactRecord !! "FirstName" = None ∨ contactRecord !! "FirstName" = Some "" →
   displayName contactRecord = trim lastName)
  ∧ (∀ a first last b,
       contactRecord !! "FirstName" = Some (String a first) →
       lastName = last +:+ String b "" →
       (Ascii.N_of_ascii a < 128)%N → is_WhiteSpace (Ascii.N_of_ascii a) = false →
       (Ascii.N_of_ascii b < 128)%N → is_WhiteSpace (Ascii.N_of_ascii b) = false →
       displayName contactRecord = String a first +:+ " " +:+ lastName).
Proof.
  intros HL. unfold displayName. rewrite HL.
  change (default "undefined" (Some lastName)) with lastName. split.
  - intros [-> | ->]; cbn [or_default String.eqb]; rewrite append_nil_l;
      unfold trim; by rewrite append_cons, trimStart_blank.
  - intros a first last b -> -> Ha Hwa Hb Hwb. cbn [or_default String.eqb].
    assert (String a first +:+ " " +:+ last +:+ String b ""
            = String a ((first +:+ " " +:+ last) +:+ String b "")) as ->.
    { by rewrite append_cons, !append_assoc. }
    by apply trim_clean.
Qed.

Lemma displayName_shape_witness :
  displayName (Script.row [("LastName", "  Lee " +:+ Script.nbsp)]) = "Lee"
  ∧ displayName (Script.row [("FirstName", "Ann"); ("LastName", "Lee")]) = "Ann Lee".
Proof.
  split.
  - rewrite (proj1 (displayName_shape (Script.row [("LastName", "  Lee " +:+ Script.nbsp)])
                      ("  Lee " +:+ Script.nbsp) eq_refl));
      [vm_compute; reflexivity|by left].
  - apply (proj2 (displayName_shape
                    (Script.row [("FirstName", "Ann"); ("LastName", "Lee")]) "Lee" eq_refl)
             "A"%char "nn" "Le" "e"%char); reflexivity.
Defined.




Section Importer.
Context {World : Type} `{!Connection World} `{!CsvLib}.

(** X13 — [findOrCreateAccount] never throws and never touches the disk; it
    always makes the lookup query, and it tries to create the account exactly
    when that query answered without a record — not when the query itself
    failed, and not when it found one. *)
Theorem findOrCreateAccount_calls accountName (env : Env World) :
  let q := accountQuery accountName in
  let creates :=
    match (conn_query q (sf env)).1 with
    | Resolve result =>
        match records result with Some (_ :: _) => false | _ => true end
    | Reject _ => false
    end in
  ∃ accountId env',
    findOrCreateAccount accountName env = (Ret accountId, env')
    ∧ files env' = files env
    ∧ trace env'
      = trace env ++ EvQuery q
          :: (if creates then [EvCreate "Account" {[ "Name" := accountName ]}] else []).
Proof.
  cbn zeta. rewrite findOrCreateAccount_run. cbn zeta.
  destruct (conn_query _ (sf env)).1 as [result|e]; [|by eexists _, _].
  destruct (records result) as [[|first rest]|]; [|by eexists _, _|];
    destruct (conn_create _ _ _).1; eexists _, _; (split; [done|]);
    (split; [done|]); cbn; by rewrite <- (assoc_L (++)).
Qed.

(** X14 — a row without an [AccountName] (absent or empty) costs exactly one
    call to the CRM: the creation of the contact, with the mapped record as
    it is. *)
Theorem processContact_without_account contact arr (env : Env World) :
  contact !! "AccountName" = None ∨ contact !! "AccountName" = Some "" →
  trace (processContact contact (arr, env)).2.2
  = trace env ++ [EvCreate "Contact" (mapContactFields contact)].
Proof.
  intros Hnone.
  assert (Hmapped : mapContactFields contact !! "AccountName" = None).
  { rewrite mapContactFields_lookup. cbn. by destruct Hnone as [-> | ->]. }
  assert (Hres : resolveAccount (mapContactFields contact) env
                 = (Ret (mapContactFields contact), env)).
  { by rewrite resolveAccount_run, Hmapped. }
  by rewrite (processContact_submits _ _ _ _ _ Hres).
Qed.

(** X15 — when the creation call reports success, the row leaves one entry
    at the end of [successfulRecords], made of the new record's [id] and the
    display name of the record that was submitted; [errors] is as it was and
    the answer is kept in [results]. *)
Theorem processContact_success_entry contact arr (env : Env World) :
  ∃ submittedRecord env1,
    resolveAccount (mapContactFields contact) env = (Ret submittedRecord, env1)
    ∧ ∀ result,
        (conn_create "Contact" submittedRecord (sf env1)).1 = Resolve result →
        success result = true →
        (processContact contact (arr, env)).2.1
        = mkArrays (results arr ++ [result]) (errors arr)
            (successfulRecords arr
               ++ [mkSuccessEntry (res_id result) (displayName submittedRecord)]).
Proof.
  destruct (resolveAccount_returns (mapContactFields contact) env)
    as (resolved & env1 & Hres & _).
  exists resolved, env1. split; [done|]. intros result Hcreate Hsuccess.
  rewrite (processContact_run _ _ _ _ _ Hres). cbn zeta.
  by rewrite Hcreate, Hsuccess.
Qed.

(** X16 — a file that holds no row: the aggregate is all zeros and empty
    lists, no call goes to the CRM, and the file is deleted. *)
Theorem importContactsFromCSV_empty_file filePath (env : Env World) text :
  files env !! filePath = Some text →
  csv_parse text = Resolve [] →
  ∃ env',
    importContactsFromCSV filePath env
    = (Ret (mkImportResult 0 0 0 [] []), env')
    ∧ sf env' = sf env
    ∧ files env' = delete filePath (files env)
    ∧ trace env' = trace env ++ [EvRead filePath; EvUnlink filePath].
Proof.
  intros Hfile Hparse.
  destruct (import_parsed _ _ _ _ Hfile Hparse) as (arr & env1 & Hloop & _ & _ & ->).
  cbn in Hloop. injection Hloop as <- <-.
  eexists. split_and!; [done..|]. cbn. by rewrite <- (assoc_L (++)).
Qed.

Lemma calls_between_refl (env : Env World) : calls_between 0 0 env env.
Proof. exists []. by rewrite app_nil_r. Qed.

Lemma calls_between_trans lo1 hi1 lo2 hi2 (env1 env2 env3 : Env World) :
  calls_between lo1 hi1 env1 env2 → calls_between lo2 hi2 env2 env3 →
  calls_between (lo1 + lo2) (hi1 + hi2) env1 env3.
Proof.
  intros (calls1 & Ht1 & Hn1) (calls2 & Ht2 & Hn2). exists (calls1 ++ calls2). split.
  - by rewrite Ht2, Ht1, (assoc_L (++)).
  - rewrite length_app. lia.
Qed.

Lemma calls_between_weaken lo hi lo' hi' (env env' : Env World) :
  (lo' ≤ lo)%nat → (hi ≤ hi')%nat →
  calls_between lo hi env env' → calls_between lo' hi' env env'.
Proof. intros Hlo Hhi (calls & Ht & Hn). exists calls. split; [done|lia]. Qed.

Lemma calls_between_log ev w (env : Env World) :
  calls_between 1 1 env (with_sf w (log ev env)).
Proof. by exists [ev]. Qed.

Lemma findOrCreateAccount_budget accountName (env : Env World) :
  calls_between 1 2 env (findOrCreateAccount accountName env).2.
Proof.
  rewrite findOrCreateAccount_run. cbn zeta.
  set (q := accountQuery accountName).
  pose proof (calls_between_log (EvQuery q) (conn_query q (sf env)).2 env) as Hq.
  assert (Hone : calls_between 1 2 env
            (with_sf (conn_query q (sf env)).2 (log (EvQuery q) env))).
  { apply (calls_between_weaken 1 1); [lia..|done]. }
  assert (Htwo : ∀ w ev, calls_between 1 2 env
            (with_sf w (log ev (with_sf (conn_query q (sf env)).2 (log (EvQuery q) env))))).
  { intros w ev. apply (calls_between_weaken 2 2); [lia..|].
    apply (calls_between_trans 1 1 1 1 _ _ _ Hq), calls_between_log. }
  destruct (conn_query q (sf env)).1 as [result|e]; [|exact Hone].
  destruct (records result) as [[|first rest]|]; [|exact Hone|];
    destruct (conn_create _ _ _).1; apply Htwo.
Qed.

Lemma processContact_budget contact arr (env : Env World) :
  calls_between 1 3 env (processContact contact (arr, env)).2.2.
Proof.
  destruct (resolveAccount_returns (mapContactFields contact) env)
    as (resolved & env1 & Hres & _).
  rewrite (processContact_submits _ _ _ _ _ Hres).
  assert (Hresolve : calls_between 0 2 env env1).
  { rewrite resolveAccount_run in Hres.
    destruct (mapContactFields contact !! "AccountName") as [name|];
      [|injection Hres as _ <-; apply (calls_between_weaken 0 0); [lia..|];
        apply calls_between_refl].
    destruct (truthy (Some name));
      [|injection Hres as _ <-; apply (calls_between_weaken 0 0); [lia..|];
        apply calls_between_refl].
    pose proof (findOrCreateAccount_budget name env) as Hfind.
    destruct (findOrCreateAccount name env) as [[accountId|e|e] env'];
      [|done..]. injection Hres as _ <-.
    apply (calls_between_weaken 1 2); [lia..|done]. }
  apply (calls_between_trans 0 2 1 1 _ _ _ Hresolve), calls_between_log.
Qed.

Lemma forOf_processContact_budget contacts arr (env : Env World) :
  calls_between (length contacts) (3 * length contacts) env
    (forOf contacts processContact (arr, env)).2.2.
Proof.
  revert arr env. induction contacts as [|contact contacts IH]; intros arr env.
  - apply calls_between_refl.
  - cbn [forOf]. rewrite bind_run.
    destruct (processContact_returns contact arr env) as (arr1 & env1 & Hrun & _).
    pose proof (processContact_budget contact arr env) as Hrow.
    rewrite Hrun in *. cbn [snd] in Hrow.
    apply (calls_between_weaken (1 + length contacts) (3 + 3 * length contacts));
      [cbn [length]; lia..|].
    apply (calls_between_trans _ _ _ _ _ _ _ Hrow), IH.
Qed.

(** X17 — an import costs between one and three CRM calls per row (the
    lookup, the account creation and the contact creation), all of them made
    between the reading of the file and its deletion. *)
Theorem importContactsFromCSV_call_budget filePath (env : Env World) text contacts :
  files env !! filePath = Some text →
  csv_parse text = Resolve contacts →
  ∃ calls,
    trace (importContactsFromCSV filePath env).2
    = trace env ++ [EvRead filePath] ++ calls ++ [EvUnlink filePath]
    ∧ Forall is_crm_call calls
    ∧ (length contacts ≤ length calls ≤ 3 * length contacts)%nat.
Proof.
  intros Hfile Hparse.
  destruct (import_parsed _ _ _ _ Hfile Hparse)
    as (arr & env1 & Hloop & (_ & _ & calls & Htrace & Hcrm & _) & _ & ->).
  pose proof (forOf_processContact_budget contacts (mkArrays [] [] [])
                (log (EvRead filePath) env)) as (calls' & Htrace' & Hn).
  rewrite Hloop in Htrace'. cbn [snd] in Htrace'.
  rewrite Htrace in Htrace'. apply (inj (app _)) in Htrace' as ->.
  exists calls'. split; [|by split].
  cbn. cbn in Htrace. by rewrite Htrace, <- !(assoc_L (++)).
Qed.

End Importer.

Import Script.

Lemma processContact_without_account_witness :
  trace (processContact bob (fresh, env0)).2.2
  = [EvCreate "Contact" (mapContactFields bob)].
Proof.
  apply (processContact_without_account bob fresh env0). by left.
Defined.

Lemma processContact_success_entry_witness :
  (processContact ann (fresh, env0)).2.1
  = mkArrays [mkCreateResult (Some "003A") true (Some [])] []
      [mkSuccessEntry (Some "003A") "Ann Lee"].
Proof.
  destruct (processContact_success_entry ann fresh env0) as (r & env1 & Hres & Hsuccess).
  run_as Hrun (resolveAccount (mapContactFields ann) env0).
  rewrite Hrun in Hres. injection Hres as <- <-.
  rewrite (Hsuccess (mkCreateResult (Some "003A") true (Some [])));
    vm_compute; reflexivity.
Defined.

Lemma importContactsFromCSV_empty_file_witness :
  ∃ env',
    importContactsFromCSV "/tmp/upload-3" (mkEnv 0%nat {[ "/tmp/upload-3" := "" ]} "" [])
    = (Ret (mkImportResult 0 0 0 [] []), env')
    ∧ files env' = ∅.
Proof.
  destruct (importContactsFromCSV_empty_file "/tmp/upload-3"
              (mkEnv 0%nat {[ "/tmp/upload-3" := "" ]} "" []) "")
    as (env' & Hrun & _ & Hfiles & _); [reflexivity..|].
  exists env'. split; [exact Hrun|]. rewrite Hfiles. cbn. apply delete_singleton_eq.
Defined.

Lemma importContactsFromCSV_call_budget_witness :
  ∃ calls,
    trace (importContactsFromCSV "/tmp/upload-1" env0).2
    = [EvRead "/tmp/upload-1"] ++ calls ++ [EvUnlink "/tmp/upload-1"]
    ∧ (5 ≤ length calls ≤ 15)%nat.
Proof.
  destruct (importContactsFromCSV_call_budget "/tmp/upload-1" env0 "contacts"
              [ann; bob; cat; dan; eve])
    as (calls & Htrace & _ & Hn); [vm_compute; reflexivity..|].
  exists calls. split; [exact Htrace|exact Hn].
Defined.

End ImportExtra.

(** ** More on the report pipeline *)

Module ReportExtra.
Import SalesforceService CsvReport ServiceFacts ReportFacts StringFacts.

Lemma sanitize_chars (s : string) :
  Forall (λ a, is_alnum a = true ∨ a = "_"%char) (chars (sanitize s)).
Proof.
  unfold sanitize. induction s as [|a s IH]; [constructor|].
  cbn [replace_each]. rewrite chars_app. apply Forall_app. split; [|exact IH].
  cbn zeta. destruct (is_alnum a) eqn:Ha; [|destruct (is_continuation (Ascii.N_of_ascii a)), (0xF0 <=? Ascii.N_of_ascii a)%N].
  - apply Forall_cons. split; [by left|constructor].
  - constructor.
  - constructor.
  - repeat (apply Forall_cons; split; [by right|]). constructor.
  - apply Forall_cons. split; [by right|constructor].
Qed.

Lemma dash_colons_dots_chars (s : string) (c : ascii) :
  c ≠ "-"%char → c ∉ chars s → c ∉ chars (dash_colons_dots s).
Proof.
  intros Hc. induction s as [|a s IH]; [done|].
  rewrite chars_cons. intros Hnot. apply not_elem_of_cons in Hnot as [Hca Hs].
  unfold dash_colons_dots in *. cbn [replace_each]. rewrite chars_app.
  apply not_elem_of_app. split; [|by apply IH].
  destruct (_ || _); cbn; set_solver.
Qed.

Lemma dash_colons_dots_no_dot (s : string) : "."%char ∉ chars (dash_colons_dots s).
Proof.
  induction s as [|a s IH]; [apply not_elem_of_nil|].
  unfold dash_colons_dots in *. cbn [replace_each]. rewrite chars_app.
  apply not_elem_of_app. split; [|exact IH].
  destruct (Ascii.eqb_spec a ":"); [cbn; set_solver|].
  destruct (Ascii.eqb_spec a "."); cbn; set_solver.
Qed.

Section Report.
Context {World : Type} `{!Connection World} `{!CsvLib} `{!Node}.

(** X18 — a report on a non-empty result opens exactly one write stream, on
    [path.join(dir, filename)], after the one query.  The text sent to it
    has one row per returned record, in order, and every row has exactly the
    columns of the header, in the header's order: a key that a later record
    has and the first lacks is left out, and a key the record lacks is an
    undefined cell.  When the stream finishes the report is returned and the
    file holds that text; when the stream fails its error is thrown and no
    report is returned. *)
Theorem generateCsvReport_written_file soql reportName dir (env : Env World)
    queryResult first rest :
  (conn_query soql (sf env)).1 = Resolve queryResult →
  records queryResult = Some (first :: rest) →
  ∃ filename fields csvData filePath text,
    filePath = path_join dir filename
    ∧ text = csv_format fields csvData
    ∧ length csvData = S (length rest)
    ∧ Forall (λ row, row.*1 = fields) csvData
    ∧ (∀ i record field,
         (first :: rest) !! i = Some record → field ∈ fields →
         ∃ row, csvData !! i = Some row ∧ (field, prop field record) ∈ row)
    ∧ (stream_error filePath text (files env) = None →
       ∃ env',
         generateCsvReport soql reportName dir env
         = (Ret (ReportSuccess filename filePath (S (length rest)) fields soql), env')
         ∧ files env' = <[filePath := text]> (files env)
         ∧ trace env' = trace env ++ [EvQuery soql; EvWrite filePath])
    ∧ (∀ error remains,
         stream_error filePath text (files env) = Some (error, remains) →
         ∃ env',
           generateCsvReport soql reportName dir env = (Throw error, env')
           ∧ files env' = remains
           ∧ trace env' = trace env ++ [EvQuery soql; EvWrite filePath]).
Proof.
  intros Hquery Hrecords. rewrite generateCsvReport_run, Hquery, Hrecords. cbn zeta.
  set (fields := filter (λ field, field ≠ "attributes") (Object_keys first)).
  exists (sanitize reportName +:+ "_" +:+ dash_colons_dots (clock env) +:+ ".csv"), fields,
    ((λ record : SObject, (λ field, (field, prop field record)) <$> fields)
       <$> (first :: rest)).
  eexists _, _. split; [reflexivity|]. split; [reflexivity|]. split_and!.
  - by rewrite length_fmap.
  - apply Forall_fmap, Forall_true. intros record. cbn.
    rewrite <- list_fmap_compose. apply list_fmap_id.
  - intros i record field Hi Hfield. eexists. split.
    + rewrite list_lookup_fmap, Hi. done.
    + apply list_elem_of_fmap. by exists field.
  - intros ->. eexists. split; [reflexivity|]. split; [done|].
    cbn. by rewrite <- (assoc_L (++)).
  - intros error remains ->. eexists. split; [reflexivity|]. split; [done|].
    cbn. by rewrite <- (assoc_L (++)).
Qed.

(** X19 — when the query itself fails, [generateCsvReport] throws that same
    error and nothing is written. *)
Theorem generateCsvReport_query_rejected soql reportName dir (env : Env World) e :
  (conn_query soql (sf env)).1 = Reject e →
  ∃ env', generateCsvReport soql reportName dir env = (Throw e, env')
          ∧ files env' = files env
          ∧ trace env' = trace env ++ [EvQuery soql].
Proof.
  intros Hquery. rewrite generateCsvReport_run, Hquery. by eexists.
Qed.

(** X20 — the report name reaches the path as one file name only: whatever
    [reportName] is, the path of a report is [path.join] of the directory
    and the file name, the file name ends in [.csv], and before that ending
    it holds no dot at all and, when the clock's text has none, no slash. *)
Theorem generateCsvReport_filename_safe soql reportName dir (env env' : Env World)
    filename filePath recordCount fields query :
  generateCsvReport soql reportName dir env
  = (Ret (ReportSuccess filename filePath recordCount fields query), env') →
  "/"%char ∉ chars (clock env) →
  ∃ stem, filename = stem +:+ ".csv"
          ∧ filePath = path_join dir filename
          ∧ ("."%char ∉ chars stem)
          ∧ ("/"%char ∉ chars stem).
Proof.
  rewrite generateCsvReport_run. cbn zeta. intros Hrun Hclock.
  destruct (conn_query soql (sf env)).1 as [queryResult|e]; [|done].
  destruct (records queryResult) as [[|first rest]|]; [done| |done].
  destruct (stream_error _ _ _) as [[error remains]|]; [done|].
  injection Hrun as <- <- _ _ _ _.
  exists (sanitize reportName +:+ "_" +:+ dash_colons_dots (clock env)).
  assert (Hname : ∀ c : ascii, is_alnum c = false → c ≠ "_"%char →
            c ∉ chars (sanitize reportName +:+ "_")).
  { intros c Hc Hu. rewrite chars_app. apply not_elem_of_app. split.
    - intros Hin. pose proof (sanitize_chars reportName) as Hall.
      rewrite Forall_forall in Hall. destruct (Hall _ Hin); congruence.
    - cbn. set_solver. }
  split_and!.
  - by rewrite !append_assoc.
  - done.
  - rewrite <- append_assoc, chars_app. apply not_elem_of_app. split.
    + by apply Hname.
    + apply dash_colons_dots_no_dot.
  - rewrite <- append_assoc, chars_app. apply not_elem_of_app. split.
    + by apply Hname.
    + by apply dash_colons_dots_chars.
Qed.

End Report.

Import Script.

Lemma generateCsvReport_written_file_witness :
  (∃ filename fields env',
     generateCsvReport "SELECT Id, LastName, Email FROM Contact" "My report!" "/tmp" env0
     = (Ret (ReportSuccess filename (path_join "/tmp" filename) 2 fields
               "SELECT Id, LastName, Email FROM Contact"), env')
     ∧ trace env' = [ EvQuery "SELECT Id, LastName, Email FROM Contact";
                      EvWrite (path_join "/tmp" filename) ])
  ∧ ∃ filename env',
      generateCsvReport "SELECT Id, LastName, Email FROM Contact" "My report!"
        "/srv/reports" env0
      = (Throw (CsvImport.ENOENT (path_join "/srv/reports" filename)), env')
      ∧ files env' = disk.
Proof.
  split.
  - destruct (generateCsvReport_written_file
                "SELECT Id, LastName, Email FROM Contact" "My report!" "/tmp" env0
                (mkQueryResult (Some contactRows))
                [ ("attributes", VObject [("type", "Contact")]); ("Id", VStr "003A");
                  ("LastName", VStr "Doe"); ("Email", VNull) ]
                [ [ ("attributes", VObject [("type", "Contact")]); ("Id", VStr "003B");
                    ("LastName", VStr "Roe"); ("Email", VStr "roe@example.com") ] ])
      as (filename & fields & csvData & filePath & text & -> & -> & _ & _ & _ & Hfinish & _);
      [vm_compute; reflexivity|reflexivity|].
    destruct Hfinish as (env' & Hrun & _ & Htrace); [vm_compute; reflexivity|].
    by exists filename, fields, env'.
  - destruct (generateCsvReport_written_file
                "SELECT Id, LastName, Email FROM Contact" "My report!" "/srv/reports" env0
                (mkQueryResult (Some contactRows))
                [ ("attributes", VObject [("type", "Contact")]); ("Id", VStr "003A");
                  ("LastName", VStr "Doe"); ("Email", VNull) ]
                [ [ ("attributes", VObject [("type", "Contact")]); ("Id", VStr "003B");
                    ("LastName", VStr "Roe"); ("Email", VStr "roe@example.com") ] ])
      as (filename & fields & csvData & filePath & text & -> & -> & _ & _ & _ & _ & Hfails);
      [vm_compute; reflexivity|reflexivity|].
    destruct (Hfails (CsvImport.ENOENT (path_join "/srv/reports" filename)) disk)
      as (env' & Hrun & Hfiles & _); [vm_compute; reflexivity|].
    by exists filename, env'.
Defined.

Lemma generateCsvReport_query_rejected_witness :
  ∃ env',
    generateCsvReport (CsvImport.accountQuery "Down") "Accounts" "/tmp" env0
    = (Throw (mkError "INVALID_SESSION_ID"), env')
    ∧ files env' = disk.
Proof.
  destruct (generateCsvReport_query_rejected (CsvImport.accountQuery "Down")
              "Accounts" "/tmp" env0 (mkError "INVALID_SESSION_ID"))
    as (env' & Hrun & Hfiles & _); [vm_compute; reflexivity|].
  by exists env'.
Defined.

Lemma generateCsvReport_filename_safe_witness :
  ∃ stem filename,
    filename = stem +:+ ".csv"
    ∧ (generateCsvReport "SELECT Id, LastName, Email FROM Contact" "../../etc/cron.d/x"
         "/tmp" env0).1
      = Ret (ReportSuccess filename (path_join "/tmp" filename) 2 ["Id"; "LastName"; "Email"]
               "SELECT Id, LastName, Email FROM Contact")
    ∧ "/"%char ∉ chars stem.
Proof.
  run_as Hrun (generateCsvReport "SELECT Id, LastName, Email FROM Contact"
                 "../../etc/cron.d/x" "/tmp" env0).
  destruct (generateCsvReport_filename_safe _ _ _ _ _ _ _ _ _ _ Hrun)
    as (stem & Hname & _ & _ & Hslash).
  - vm_compute. intros H. repeat (apply elem_of_cons in H as [H|H]; [discriminate|]).
    by apply elem_of_nil in H.
  - eexists stem, _. split; [exact Hname|]. split; [by rewrite Hrun|exact Hslash].
Defined.

End ReportExtra.

(** ** The language-model service, the query author and the routes *)

Module RoutesExtra.
Import SalesforceService AnthropicService ReportQuery CsvImport CsvReport Routes.
Import ServiceFacts ImportFacts ReportFacts StringFacts.

Section Handlers.
Context {World : Type} `{!Connection World} `{!CsvLib} `{!Node} `{!Assistant World}.

Lemma liftEnv_run {A} (m : M (Env World) A) (site : Site World) :
  liftEnv m site = ((m (env site)).1, with_env (m (env site)).2 site).
Proof. unfold liftEnv. by destruct (m (env site)). Qed.

(** The body [generateClaudeResponse] posts. *)
Lemma generateClaudeResponse_run prompt options clientApiKey (site : Site World) :
  let opts : gmap string Json := default ∅ options in
  let apiKey := if truthy clientApiKey then clientApiKey else ANTHROPIC_API_KEY site in
  let body : gmap string Json :=
    delete "temperature" (delete "maxTokens" (delete "model" (delete "systemPrompt" opts)))
    ∪ {[ "model" := default (JStr "claude-3-opus-20240229") (opts !! "model");
         "messages" := JArr [JObj [("role", JStr "user"); ("content", JStr prompt)]];
         "system" := default (JStr DEFAULT_SYSTEM_PROMPT) (opts !! "systemPrompt");
         "max_tokens" := default (JNum "1024") (opts !! "maxTokens");
         "temperature" := default (JNum "0.7") (opts !! "temperature") ]} in
  generateClaudeResponse prompt options clientApiKey site
  = (await (axios_post body apiKey (sf (env site))).1,
     with_env (with_sf (axios_post body apiKey (sf (env site))).2 (env site))
              (sent (OutClaude body apiKey) site)).
Proof.
  cbn zeta. unfold generateClaudeResponse. rewrite try_rethrow_run, bind_run.
  unfold resolveApiKey, post. by destruct (axios_post _ _ _).
Qed.

(** X21 — what goes to the model.  The key sent is the caller's when it is
    non-empty and the server's otherwise.  Every option besides
    [systemPrompt], [model], [maxTokens] and [temperature] is copied into the
    request body under its own name and wins over the field the body would
    have had: without an option named [messages] the body carries the prompt
    as one user message, with one it carries the option instead. *)
Theorem generateClaudeResponse_request prompt options clientApiKey (site : Site World) :
  let opts : gmap string Json := default ∅ options in
  ∃ outcome body apiKey site',
    generateClaudeResponse prompt options clientApiKey site = (outcome, site')
    ∧ outbound site' = outbound site ++ [OutClaude body apiKey]
    ∧ apiKey = (if truthy clientApiKey then clientApiKey else ANTHROPIC_API_KEY site)
    ∧ (∀ key v, opts !! key = Some v →
         key ∉ ["systemPrompt"; "model"; "maxTokens"; "temperature"] →
         body !! key = Some v)
    ∧ (opts !! "messages" = None →
       body !! "messages"
       = Some (JArr [JObj [("role", JStr "user"); ("content", JStr prompt)]]))
    ∧ (opts !! "system" = None →
       body !! "system" = Some (default (JStr DEFAULT_SYSTEM_PROMPT) (opts !! "systemPrompt")))
    ∧ body !! "systemPrompt" = None.
Proof.
  cbn zeta. rewrite generateClaudeResponse_run. cbn zeta.
  eexists _, _, _, _. split; [reflexivity|]. split_and!; [done|done|..].
  - intros key v Hkey Hother. apply lookup_union_Some_l.
    rewrite !lookup_delete_ne by set_solver. done.
  - intros Hnone. rewrite lookup_union_r by (by rewrite !lookup_delete_ne).
    by simplify_map_eq.
  - intros Hnone. rewrite lookup_union_r by (by rewrite !lookup_delete_ne).
    by simplify_map_eq.
  - rewrite lookup_union_r.
    + by simplify_map_eq.
    + rewrite !lookup_delete_ne by done. apply lookup_delete_eq.
Qed.

Lemma describeObject_run objectName (site : Site World) :
  describeObject objectName site
  = (await (conn_describe objectName (sf (env site))).1,
     with_env (with_sf (conn_describe objectName (sf (env site))).2 (env site))
              (sent (OutDescribe objectName) site)).
Proof.
  unfold describeObject. rewrite try_rethrow_run. by destruct (conn_describe _ _).
Qed.

(** X22 — the query author.  When the description of the object fails, the
    error is thrown on and the model is never asked.  When a query comes
    back, it is the first block of what the model answered to the one
    request, with the white space at its two ends removed; the fields listed
    are those of the description, one for one and in order; and exactly two
    calls were made: the description, then the model, under the fixed system
    prompt. *)
Theorem generateReportQuery_outcomes description objectName options clientApiKey
    (site : Site World) :
  (∀ e, (conn_describe objectName (sf (env site))).1 = Reject e →
     ∃ site', generateReportQuery description objectName options clientApiKey site
              = (Throw e, site')
              ∧ outbound site' = outbound site ++ [OutDescribe objectName])
  ∧ (∀ generated site',
       generateReportQuery description objectName options clientApiKey site
       = (Ret generated, site') →
       ∃ metadata body apiKey data text blocks,
         (conn_describe objectName (sf (env site))).1 = Resolve metadata
         ∧ apiKey = (if truthy clientApiKey then clientApiKey else ANTHROPIC_API_KEY site)
         ∧ (axios_post body apiKey (conn_describe objectName (sf (env site))).2).1
           = Resolve data
         ∧ content data = text :: blocks
         ∧ soqlQuery generated = trim text
         ∧ availableFields generated = fieldInfo <$> meta_fields metadata
         ∧ outbound site'
           = outbound site ++ [OutDescribe objectName; OutClaude body apiKey]
         ∧ body !! "system" = Some (JStr SOQL_SYSTEM_PROMPT)).
Proof.
  unfold generateReportQuery. rewrite try_rethrow_run, bind_run, describeObject_run.
  split.
  - intros e ->. by eexists.
  - intros generated site'.
    destruct (conn_describe objectName (sf (env site))).1 as [metadata|e]; [|done].
    cbn [await]. rewrite bind_run, generateClaudeResponse_run. cbn zeta.
    cbn [fst snd env with_env with_sf sf sent].
    match goal with
    | |- context [axios_post ?b ?k ?w] =>
        destruct (axios_post b k w).1 as [data|e] eqn:Hpost; [|done];
        cbn [await]; destruct (content data) as [|text blocks] eqn:Hcontent; [done|];
        intros [= <- <-]; exists metadata, b, k, data, text, blocks
    end.
    split_and!; [done..| |].
    + cbn. by rewrite <- (assoc_L (++)).
    + rewrite lookup_union_r.
      * by simplify_map_eq.
      * by simplify_map_eq.
Qed.

(** X23 — the import route always answers once the upload can be opened:
    400 without a file, with nothing touched; the aggregate when the file
    parses, the upload then being gone from the disk; and 500 with the
    parser's message when it does not, the upload then being left on the
    disk. *)
Theorem importContactsRoute_outcomes (site : Site World) :
  importContactsRoute None site = (Ret (ErrorJson 400 "No CSV file uploaded"), site)
  ∧ (∀ file text contacts,
       files (env site) !! path file = Some text →
       csv_parse text = Resolve contacts →
       ∃ result site',
         importContactsRoute (Some file) site = (Ret (ImportJson result), site')
         ∧ totalProcessed result = length contacts
         ∧ files (env site') = delete (path file) (files (env site))
         ∧ outbound site' = outbound site)
  ∧ (∀ file text e,
       files (env site) !! path file = Some text →
       csv_parse text = Reject e →
       ∃ site',
         importContactsRoute (Some file) site = (Ret (ErrorJson 500 (message e)), site')
         ∧ files (env site') = files (env site)
         ∧ outbound site' = outbound site).
Proof.
  split_and!.
  - done.
  - intros file text contacts Hfile Hparse.
    destruct (import_parsed _ _ _ _ Hfile Hparse) as (arr & env1 & _ & _ & _ & Hrun).
    unfold importContactsRoute, try_catch. rewrite bind_run, liftEnv_run, Hrun.
    by eexists _, _.
  - intros file text e Hfile Hparse.
    unfold importContactsRoute, try_catch.
    rewrite bind_run, liftEnv_run, (import_rejected _ _ _ _ Hfile Hparse).
    by eexists.
Qed.

Lemma sendReport_run queryToExecute reportName (site : Site World) :
  sendReport queryToExecute reportName site
  = match generateCsvReport queryToExecute (or_default reportName "Contacts_Report")
            (tmpdir site) (env site) with
    | (Ret (ReportFailure error query), e) =>
        (Ret (NotFoundJson (ReportFailure error query)), with_env e site)
    | (Ret (ReportSuccess filename filePath _ _ _), e) =>
        match files e !! filePath with
        | Some text =>
            (Ret (Download filename text),
             with_env (with_files (delete filePath (files e))
                         (log (EvUnlink filePath) (log (EvRead filePath) e))) site)
        | None => (Uncaught (ENOENT filePath), with_env e site)
        end
    | (Throw error, e) => (Throw error, with_env e site)
    | (Uncaught error, e) => (Uncaught error, with_env e site)
    end.
Proof.
  unfold sendReport, os_tmpdir. rewrite bind_run. cbn [fst snd].
  rewrite bind_run, liftEnv_run.
  destruct (generateCsvReport _ _ _ _) as [[[error query|filename filePath n fs q]|e|e] e1];
    cbn [fst snd]; [done| |done|done].
  rewrite bind_run, liftEnv_run. unfold pipeAndUnlink. cbn [env with_env].
  by destruct (files e1 !! filePath).
Qed.

Lemma sendReport_outbound queryToExecute reportName (site : Site World) :
  outbound (sendReport queryToExecute reportName site).2 = outbound site.
Proof.
  rewrite sendReport_run.
  destruct (generateCsvReport _ _ _ _) as [[[error query|filename filePath n fs q]|e|e] e1];
    [done| |done|done].
  by destruct (files e1 !! filePath).
Qed.

(** X24 — the report route asks the model only when it has to.  Without a
    query and without a description it answers 400 and nothing is called;
    with a query in the body neither the description of the object nor the
    model is called, whatever else the body holds. *)
Theorem reportContactsRoute_validation body anthropicKey (site : Site World) :
  (truthy (soql body) = false → truthy (description body) = false →
   reportContactsRoute body anthropicKey site
   = (Ret (ErrorJson 400 "Either SOQL query or report description is required"), site))
  ∧ (truthy (soql body) = true →
     outbound (reportContactsRoute body anthropicKey site).2 = outbound site).
Proof.
  split.
  - intros Hsoql Hdesc. unfold reportContactsRoute, try_catch. by rewrite Hsoql, Hdesc.
  - intros Hsoql. unfold reportContactsRoute, try_catch. rewrite Hsoql.
    pose proof (sendReport_outbound (default "" (soql body)) (reportName body) site) as Hout.
    by destruct (sendReport _ _ site) as [[r|e|e] site'].
Qed.

(** X25 — a report requested by its query.  On a non-empty result one write
    stream is opened in the temporary directory of the process.  When it
    finishes, the answer is a download whose body is the text that was
    written, under the report's file name, and the file is gone from the
    disk when the request ends; when it fails, the answer is 500 with the
    message of its error and nothing is read or deleted.  On an empty result
    the answer is 404 with the failure object and the disk is as it was;
    when the query fails the answer is 500 with the message of the error. *)
Theorem reportContactsRoute_by_query body anthropicKey (site : Site World) query :
  soql body = Some query → query ≠ "" →
  let answer := (conn_query query (sf (env site))).1 in
  (∀ queryResult first rest,
     answer = Resolve queryResult → records queryResult = Some (first :: rest) →
     ∃ filename fields csvData filePath text,
       filePath = path_join (tmpdir site) filename
       ∧ text = csv_format fields csvData
       ∧ length csvData = S (length rest)
       ∧ (stream_error filePath text (files (env site)) = None →
          ∃ site',
            reportContactsRoute body anthropicKey site = (Ret (Download filename text), site')
            ∧ files (env site') = delete filePath (files (env site))
            ∧ trace (env site')
              = trace (env site)
                ++ [EvQuery query; EvWrite filePath; EvRead filePath; EvUnlink filePath])
       ∧ (∀ error remains,
            stream_error filePath text (files (env site)) = Some (error, remains) →
            ∃ site',
              reportContactsRoute body anthropicKey site
              = (Ret (ErrorJson 500 (message error)), site')
              ∧ files (env site') = remains
              ∧ trace (env site') = trace (env site) ++ [EvQuery query; EvWrite filePath]))
  ∧ (∀ queryResult,
       answer = Resolve queryResult →
       records queryResult = None ∨ records queryResult = Some [] →
       ∃ site',
         reportContactsRoute body anthropicKey site
         = (Ret (NotFoundJson
                   (ReportFailure "No records found for the specified query" query)), site')
         ∧ files (env site') = files (env site))
  ∧ (∀ e, answer = Reject e →
       ∃ site',
         reportContactsRoute body anthropicKey site = (Ret (ErrorJson 500 (message e)), site')
         ∧ files (env site') = files (env site)).
Proof.
  intros Hsoql Hquery. cbn zeta.
  assert (Htruthy : truthy (soql body) = true).
  { rewrite Hsoql. cbn. by destruct (String.eqb_spec query ""). }
  unfold reportContactsRoute, try_catch. rewrite Htruthy, Hsoql.
  change (default "" (Some query)) with query.
  rewrite sendReport_run, generateCsvReport_run. cbn zeta. split_and!.
  - intros queryResult first rest -> ->.
    set (fields := filter (λ field, field ≠ "attributes") (Object_keys first)).
    exists (sanitize (or_default (reportName body) "Contacts_Report") +:+ "_"
            +:+ dash_colons_dots (clock (env site)) +:+ ".csv"), fields,
      ((λ record : SObject, (λ field, (field, prop field record)) <$> fields)
         <$> (first :: rest)).
    eexists _, _. split; [reflexivity|]. split; [reflexivity|]. split_and!.
    + by rewrite length_fmap.
    + intros ->. cbn [files with_files]. rewrite lookup_insert_eq.
      eexists. split; [reflexivity|]. split.
      * cbn. by rewrite delete_insert_eq.
      * cbn. by rewrite <- !(assoc_L (++)).
    + intros error remains ->. eexists. split; [reflexivity|]. split; [done|].
      cbn. by rewrite <- !(assoc_L (++)).
  - intros queryResult -> [-> | ->]; by eexists.
  - intros e ->. by eexists.
Qed.

Lemma analyzeContactsRoute_run file task anthropicKey (site : Site World) text :
  files (env site) !! path file = Some text →
  truthy task = true →
  analyzeContactsRoute (Some file) task anthropicKey site
  = match generateClaudeResponse (analysisUserPrompt text (default "" task))
            (Some {[ "systemPrompt" := JStr ANALYSIS_SYSTEM_PROMPT ]}) anthropicKey
            (with_env (log (EvRead (path file)) (env site)) site) with
    | (Ret analysis, site1) =>
        match unlinkSync (path file) (env site1) with
        | (Ret _, e) =>
            (Ret (AnalysisJson analysis (originalname file) (default "" task)),
             with_env e site1)
        | (Throw error, e) => (Ret (ErrorJson 500 (message error)), with_env e site1)
        | (Uncaught error, e) => (Uncaught error, with_env e site1)
        end
    | (Throw error, site1) => (Ret (ErrorJson 500 (message error)), site1)
    | (Uncaught error, site1) => (Uncaught error, site1)
    end.
Proof.
  intros Hfile Htask. unfold analyzeContactsRoute, try_catch. rewrite Htask.
  rewrite bind_run, liftEnv_run. unfold readFileSync. rewrite Hfile. cbn [fst snd].
  rewrite bind_run.
  destruct (generateClaudeResponse _ _ _ _) as [[analysis|e|e] site1]; [|done..].
  rewrite bind_run, liftEnv_run.
  by destruct (unlinkSync (path file) (env site1)) as [[[]|e|e] e1].
Qed.

(** X26 — the analysis route deletes the upload only after the model has
    answered.  With a task and a readable upload, the model is asked once,
    with the text of the file in the prompt; if it answers, the answer is
    returned with the upload's original name and the upload is deleted; if it
    fails, the answer is 500 with the message of the error and the upload
    stays on the disk.  Without a task the answer is 400, nothing is called
    and the upload stays on the disk. *)
Theorem analyzeContactsRoute_cleanup file task anthropicKey (site : Site World) text :
  files (env site) !! path file = Some text →
  (truthy task = false →
   analyzeContactsRoute (Some file) task anthropicKey site
   = (Ret (ErrorJson 400 "Analysis task is required"), site))
  ∧ (truthy task = true →
     ∃ body apiKey,
       apiKey = (if truthy anthropicKey then anthropicKey else ANTHROPIC_API_KEY site)
       ∧ body !! "messages"
         = Some (JArr [JObj [("role", JStr "user");
                             ("content", JStr (analysisUserPrompt text (default "" task)))]])
       ∧ (∀ analysis w,
            axios_post body apiKey (sf (env site)) = (Resolve analysis, w) →
            ∃ site',
              analyzeContactsRoute (Some file) task anthropicKey site
              = (Ret (AnalysisJson analysis (originalname file) (default "" task)), site')
              ∧ files (env site') = delete (path file) (files (env site))
              ∧ outbound site' = outbound site ++ [OutClaude body apiKey])
       ∧ (∀ e w,
            axios_post body apiKey (sf (env site)) = (Reject e, w) →
            ∃ site',
              analyzeContactsRoute (Some file) task anthropicKey site
              = (Ret (ErrorJson 500 (message e)), site')
              ∧ files (env site') = files (env site)
              ∧ outbound site' = outbound site ++ [OutClaude body apiKey])).
Proof.
  intros Hfile. split.
  - intros Htask. unfold analyzeContactsRoute, try_catch. by rewrite Htask.
  - intros Htask. rewrite (analyzeContactsRoute_run _ _ _ _ _ Hfile Htask).
    rewrite generateClaudeResponse_run. cbn zeta. cbn [env with_env sf log].
    match goal with |- context [axios_post ?b ?k _] => exists b, k end.
    split_and!.
    + done.
    + change (default ∅ (Some ?m)) with m.
      rewrite lookup_union_r.
      * by simplify_map_eq.
      * rewrite !lookup_delete_ne by done. apply lookup_singleton_ne. done.
    + intros analysis w ->. cbn [fst snd await]. unfold unlinkSync.
      cbn [env with_env files with_sf log]. rewrite Hfile.
      eexists. split_and!; reflexivity.
    + intros e w ->. cbn [fst snd await]. eexists. split_and!; reflexivity.
Qed.

(** X27 — behind the authentication chain the server's own key is never
    spent: when a request has passed [authenticateAnthropicKey] and
    [rateLimiter], the key it carried is non-empty, and the generate route,
    run with it, either answers 400 without calling the model or calls the
    model exactly once, with that very key. *)
Theorem generateRoute_spends_caller_key req now (rc rc' : gmap string Auth.Entry)
    anthropicKey limit remaining reset prompt options (site : Site World) :
  Middleware.guard req now rc = (Middleware.Routed anthropicKey limit remaining reset, rc') →
  Auth.x_api_key req = Some anthropicKey
  ∧ anthropicKey ≠ ""
  ∧ (outbound (generateRoute prompt options (Some anthropicKey) site).2 = outbound site
     ∨ ∃ body, outbound (generateRoute prompt options (Some anthropicKey) site).2
               = outbound site ++ [OutClaude body (Some anthropicKey)]).
Proof.
  unfold Middleware.guard, Middleware.authenticateAnthropicKey.
  destruct (Auth.x_api_key req) as [apiKey|] eqn:Hkey; [|done].
  destruct (truthy (Some apiKey)) eqn:Htruthy; [|done].
  destruct (Auth.rateLimiter req now rc) as [[l r s|ra] rc1]; [|done].
  intros [= -> _ _ _ _]. split; [done|].
  assert (Hne : anthropicKey ≠ "").
  { cbn in Htruthy. by destruct (String.eqb_spec anthropicKey ""). }
  split; [done|].
  unfold generateRoute, try_catch. destruct (truthy prompt); [|by left].
  right. rewrite bind_run, generateClaudeResponse_run. cbn zeta. rewrite Htruthy.
  eexists. by destruct (axios_post _ _ _) as [[data|e] w].
Qed.

End Handlers.

Import Script ScriptAssistant.

Lemma generateReportQuery_outcomes_witness :
  (∃ site', generateReportQuery "all contacts" "Lead" (JObj []) None site0
            = (Throw (mkError "NOT_FOUND"), site')
            ∧ outbound site' = [OutDescribe "Lead"])
  ∧ ∃ generated site',
      generateReportQuery "all contacts" "Contact" (JObj []) (Some "sk-ant-1") site0
      = (Ret generated, site')
      ∧ soqlQuery generated = "SELECT Id, LastName, Email FROM Contact"
      ∧ length (availableFields generated) = 2%nat.
Proof.
  split.
  - destruct (proj1 (generateReportQuery_outcomes "all contacts" "Lead" (JObj []) None site0)
                (mkError "NOT_FOUND")) as (site' & Hrun & Hout); [reflexivity|].
    by exists site'.
  - run_as Hrun (generateReportQuery "all contacts" "Contact" (JObj []) (Some "sk-ant-1") site0).
    destruct (proj2 (generateReportQuery_outcomes "all contacts" "Contact" (JObj [])
                       (Some "sk-ant-1") site0) _ _ Hrun)
      as (metadata & body & apiKey & data & text & blocks
          & Hmeta & -> & Hpost & Hcontent & Hquery & Hfields & _).
    eexists _, _. split; [exact Hrun|]. split.
    + rewrite Hquery. vm_compute in Hpost. injection Hpost as <-.
      injection Hcontent as <- _. vm_compute; reflexivity.
    + rewrite Hfields. injection Hmeta as <-. reflexivity.
Defined.

Lemma generateClaudeResponse_request_witness :
  ∃ body,
    outbound (generateClaudeResponse "Hello"
                (Some {[ "maxTokens" := JNum "64"; "top_k" := JNum "5" ]}) (Some "") site0).2
    = [OutClaude body (Some "sk-server")]
    ∧ body !! "top_k" = Some (JNum "5")
    ∧ body !! "messages"
      = Some (JArr [JObj [("role", JStr "user"); ("content", JStr "Hello")]]).
Proof.
  destruct (generateClaudeResponse_request "Hello"
              (Some {[ "maxTokens" := JNum "64"; "top_k" := JNum "5" ]}) (Some "") site0)
    as (outcome & body & apiKey & site' & Hrun & Hout & -> & Hcopied & Hmessages & _).
  exists body. rewrite Hrun. split_and!.
  - exact Hout.
  - apply Hcopied; [vm_compute; reflexivity|].
    intros Hin. repeat (apply elem_of_cons in Hin as [Hin|Hin]; [discriminate|]).
    by apply elem_of_nil in Hin.
  - apply Hmessages. vm_compute; reflexivity.
Defined.

Lemma importContactsRoute_outcomes_witness :
  (∃ result site',
     importContactsRoute (Some upload1) site0 = (Ret (ImportJson result), site')
     ∧ totalProcessed result = 5%nat
     ∧ files (env site') !! "/tmp/upload-1" = None)
  ∧ ∃ site',
      importContactsRoute (Some upload2) site0
      = (Ret (ErrorJson 500 "Row exceeds the maximum size"), site')
      ∧ files (env site') !! "/tmp/upload-2" = Some "oversized".
Proof.
  destruct (importContactsRoute_outcomes site0) as (_ & Hparsed & Hrejected). split.
  - destruct (Hparsed upload1 "contacts" [ann; bob; cat; dan; eve])
      as (result & site' & Hrun & Htotal & Hfiles & _); [vm_compute; reflexivity..|].
    exists result, site'. split_and!; [exact Hrun|exact Htotal|].
    rewrite Hfiles. apply lookup_delete_eq.
  - destruct (Hrejected upload2 "oversized" (mkError "Row exceeds the maximum size"))
      as (site' & Hrun & Hfiles & _); [vm_compute; reflexivity..|].
    exists site'. split; [exact Hrun|]. rewrite Hfiles. vm_compute; reflexivity.
Defined.

Lemma reportContactsRoute_validation_witness :
  reportContactsRoute (mkReportBody (Some "") None None None) (Some "sk-ant-1") site0
  = (Ret (ErrorJson 400 "Either SOQL query or report description is required"), site0)
  ∧ outbound (reportContactsRoute
                (mkReportBody (Some "SELECT Id FROM Lead") None (Some "all leads") None)
                (Some "sk-ant-1") site0).2 = [].
Proof.
  split.
  - apply (proj1 (reportContactsRoute_validation
                    (mkReportBody (Some "") None None None) (Some "sk-ant-1") site0));
      reflexivity.
  - apply (proj2 (reportContactsRoute_validation
                    (mkReportBody (Some "SELECT Id FROM Lead") None (Some "all leads") None)
                    (Some "sk-ant-1") site0)).
    reflexivity.
Defined.

Lemma reportContactsRoute_by_query_witness :
  (∃ filename text site',
     reportContactsRoute
       (mkReportBody (Some "SELECT Id, LastName, Email FROM Contact") None None None)
       None site0
     = (Ret (Download filename text), site')
     ∧ files (env site') = delete (path_join "/tmp" filename) disk)
  ∧ (∃ error site',
       reportContactsRoute
         (mkReportBody (Some "SELECT Id, LastName, Email FROM Contact") None None None)
         None (mkSite env0 None "/srv/reports" [])
       = (Ret (ErrorJson 500 error), site')
       ∧ files (env site') = disk)
  ∧ (∃ site',
       reportContactsRoute (mkReportBody (Some "SELECT Id FROM Lead") None None None)
         None site0
       = (Ret (NotFoundJson (ReportFailure "No records found for the specified query"
                               "SELECT Id FROM Lead")), site')
       ∧ files (env site') = disk)
  ∧ ∃ site',
      reportContactsRoute (mkReportBody (Some (accountQuery "Down")) None None None)
        None site0
      = (Ret (ErrorJson 500 "INVALID_SESSION_ID"), site')
      ∧ files (env site') = disk.
Proof.
  split_and!.
  - destruct (reportContactsRoute_by_query
                (mkReportBody (Some "SELECT Id, LastName, Email FROM Contact") None None None)
                None site0 "SELECT Id, LastName, Email FROM Contact")
      as (Hfound & _); [reflexivity|discriminate|].
    destruct (Hfound (mkQueryResult (Some contactRows))
                [ ("attributes", VObject [("type", "Contact")]); ("Id", VStr "003A");
                  ("LastName", VStr "Doe"); ("Email", VNull) ]
                [ [ ("attributes", VObject [("type", "Contact")]); ("Id", VStr "003B");
                    ("LastName", VStr "Roe"); ("Email", VStr "roe@example.com") ] ])
      as (filename & fields & csvData & filePath & text & -> & -> & _ & Hfinish & _);
      [vm_compute; reflexivity|reflexivity|].
    destruct Hfinish as (site' & Hrun & Hfiles & _); [vm_compute; reflexivity|].
    by eexists filename, _, site'.
  - destruct (reportContactsRoute_by_query
                (mkReportBody (Some "SELECT Id, LastName, Email FROM Contact") None None None)
                None (mkSite env0 None "/srv/reports" [])
                "SELECT Id, LastName, Email FROM Contact")
      as (Hfound & _); [reflexivity|discriminate|].
    destruct (Hfound (mkQueryResult (Some contactRows))
                [ ("attributes", VObject [("type", "Contact")]); ("Id", VStr "003A");
                  ("LastName", VStr "Doe"); ("Email", VNull) ]
                [ [ ("attributes", VObject [("type", "Contact")]); ("Id", VStr "003B");
                    ("LastName", VStr "Roe"); ("Email", VStr "roe@example.com") ] ])
      as (filename & fields & csvData & filePath & text & -> & -> & _ & _ & Hfails);
      [vm_compute; reflexivity|reflexivity|].
    destruct (Hfails (ENOENT (path_join "/srv/reports" filename)) disk)
      as (site' & Hrun & Hfiles & _); [vm_compute; reflexivity|].
    by eexists _, site'.
  - destruct (reportContactsRoute_by_query
                (mkReportBody (Some "SELECT Id FROM Lead") None None None)
                None site0 "SELECT Id FROM Lead")
      as (_ & Hempty & _); [reflexivity|discriminate|].
    destruct (Hempty (mkQueryResult None)) as (site' & Hrun & Hfiles);
      [vm_compute; reflexivity|by left|].
    by exists site'.
  - destruct (reportContactsRoute_by_query
                (mkReportBody (Some (accountQuery "Down")) None None None)
                None site0 (accountQuery "Down"))
      as (_ & _ & Hfailed); [reflexivity|by vm_compute|].
    destruct (Hfailed (mkError "INVALID_SESSION_ID")) as (site' & Hrun & Hfiles);
      [vm_compute; reflexivity|].
    by exists site'.
Defined.

Lemma analyzeContactsRoute_cleanup_witness :
  analyzeContactsRoute (Some upload1) None (Some "sk-ant-1") site0
  = (Ret (ErrorJson 400 "Analysis task is required"), site0)
  ∧ (∃ analysis site',
       analyzeContactsRoute (Some upload1) (Some "Find duplicates") (Some "sk-ant-1") site0
       = (Ret (AnalysisJson analysis "contacts.csv" "Find duplicates"), site')
       ∧ files (env site') !! "/tmp/upload-1" = None)
  ∧ ∃ site',
      analyzeContactsRoute (Some upload1) (Some "Find duplicates") (Some "sk-revoked") site0
      = (Ret (ErrorJson 500 "Request failed with status code 401"), site')
      ∧ files (env site') !! "/tmp/upload-1" = Some "contacts".
Proof.
  split_and!.
  - apply (proj1 (analyzeContactsRoute_cleanup upload1 None (Some "sk-ant-1") site0
                    "contacts" eq_refl)).
    reflexivity.
  - destruct (proj2 (analyzeContactsRoute_cleanup upload1 (Some "Find duplicates")
                       (Some "sk-ant-1") site0 "contacts" eq_refl) eq_refl)
      as (body & apiKey & -> & _ & Hanswered & _).
    destruct (Hanswered
                (mkClaudeData ["  SELECT Id, LastName, Email FROM Contact" +:+ nl]) 0%nat)
      as (site' & Hrun & Hfiles & _); [reflexivity|].
    eexists _, site'. split; [exact Hrun|]. rewrite Hfiles. apply lookup_delete_eq.
  - destruct (proj2 (analyzeContactsRoute_cleanup upload1 (Some "Find duplicates")
                       (Some "sk-revoked") site0 "contacts" eq_refl) eq_refl)
      as (body & apiKey & -> & _ & _ & Hfailed).
    destruct (Hfailed (mkError "Request failed with status code 401") 0%nat)
      as (site' & Hrun & Hfiles & _); [reflexivity|].
    exists site'. split; [exact Hrun|]. rewrite Hfiles. vm_compute; reflexivity.
Defined.

Lemma generateRoute_spends_caller_key_witness :
  ∃ body,
    outbound (generateRoute (Some "Hello") None (Some "sk-ant-1") site0).2
    = [OutClaude body (Some "sk-ant-1")].
Proof.
  destruct (generateRoute_spends_caller_key
              (Auth.mkRequest (Some "sk-ant-1") "10.0.0.7") 1000 ∅
              (<["sk-ant-1" := Auth.mkEntry 1 61000]> ∅) "sk-ant-1"
              (Auth.Num 5) (Auth.Num 4) (Auth.Num 61) (Some "Hello") None site0)
    as (_ & _ & [Hnone | [body Hcall]]); [reflexivity| |].
  - exfalso. revert Hnone. vm_compute. discriminate.
  - by exists body.
Defined.

End RoutesExtra.

(** ** The shared connection *)

Module SessionFacts.
Import Session.
Section Session.
Context {World : Type} `{!Jsforce World}.

Lemma getConnections_connected n (p : Proc World) conn :
  connection p = Some conn →
  getConnections n p = (replicate n (Ret conn), p).
Proof.
  intros Hconn.
  assert (Hget : getConnection p = (Ret conn, p)).
  { unfold getConnection. destruct (connection p) as [c|]; [|done].
    by injection Hconn as ->. }
  induction n as [|n IH]; [done|].
  simpl. by rewrite Hget, IH.
Qed.

(** X28 — the connection is made once and kept.  After a call of
    [getConnection] has returned a connection, any number of further calls
    return that same connection without logging in again; and a call that
    fails to log in leaves no connection behind, so that the next call tries
    again. *)
Theorem getConnection_reuse (p p1 : Proc World) :
  (∀ conn, getConnection p = (Ret conn, p1) →
     ∀ n, getConnections n p1 = (replicate n (Ret conn), p1))
  ∧ (∀ error, getConnection p = (Throw error, p1) →
     connection p = None ∧ connection p1 = None
     ∧ attempts p1 = S (attempts p)
     ∧ getConnection p1 = setupSalesforce p1).
Proof.
  unfold getConnection at 1 2. unfold setupSalesforce at 1 2. split.
  - intros conn Hrun n. apply getConnections_connected.
    destruct (connection p) as [c|] eqn:Hc.
    + by injection Hrun as <- <-.
    + destruct (conn_login (crm p)) as [[[]|e] w]; [|done]. by injection Hrun as <- <-.
  - intros error Hrun. destruct (connection p) as [c|] eqn:Hc; [done|].
    destruct (conn_login (crm p)) as [[[]|e] w]; [done|]. injection Hrun as _ <-.
    cbn. by split_and!.
Qed.

End Session.

Lemma getConnection_reuse_witness :
  (getConnections 6 (mkProc 0%nat None 0%nat)).1
  = [ Throw (mkError "INVALID_LOGIN"); Throw (mkError "INVALID_LOGIN");
      Ret 3%nat; Ret 3%nat; Ret 3%nat; Ret 3%nat ]
  ∧ attempts (getConnections 6 (mkProc 0%nat None 0%nat)).2 = 3%nat.
Proof.
  assert (Hthird : getConnection (mkProc 2%nat None 2%nat)
                   = (Ret 3%nat, mkProc 3%nat (Some 3%nat) 3%nat)) by reflexivity.
  pose proof (proj1 (getConnection_reuse _ _) _ Hthird 3%nat) as Hkept.
  change (getConnections 6 (mkProc 0%nat None 0%nat))
    with (let '(rs, p2) := getConnections 3 (mkProc 3%nat (Some 3%nat) 3%nat) in
          (Throw (mkError "INVALID_LOGIN") :: Throw (mkError "INVALID_LOGIN")
             :: Ret 3%nat :: rs, p2)).
  rewrite Hkept. by split.
Defined.

End SessionFacts.
